(** * Asset retrieval and on-disk cache of the Immich hub

    A shallow embedding of [custom_components/immich/hub.py]: the methods
    [download_asset], [load_cached_asset], [cache_album_assets] and
    [initialize_asset_cache] of class [ImmichHub], together with the
    operating-system and HTTP calls they make.

    The methods are written in a state-and-exception monad over a [world]
    that holds the file system and a trace of the observable events (HTTP
    requests issued, log records emitted).  Whatever the hub cannot decide
    from that state (the answer of the remote server, an I/O error) is
    decided by an [environment], over which every theorem quantifies. *)

From Stdlib Require Import ZArith Ascii String List.
From stdpp Require Import gmap strings list fin_maps.
Import ListNotations.

Local Open Scope Z_scope.
Local Open Scope string_scope.
Local Open Scope list_scope.

(** ** Data *)

(** Python [bytes]. *)
Abbreviation bytes := (list Byte.byte).

(** The exceptions that occur in the modelled methods.  [ClientError] is
    [aiohttp.ClientError], [OSError] stands for whatever a file operation
    raises, [CannotConnect] is the hub's own exception class and
    [AttributeError] is raised by reading an attribute that was never
    assigned. *)
Inductive exn :=
| ClientError
| OSError
| CannotConnect
| AttributeError (attr : string).

(** What lives under a name inside a directory. *)
Inductive entry :=
| RegularFile (content : bytes)
| Subdirectory.

(** What lives at a directory path; a path that is not in the map does not
    exist. *)
Inductive node :=
| NotADirectory
| Directory (entries : gmap string entry).

(** [os.path.join(directory, name)], kept as its two components: the asset
    id is used verbatim as the file name inside the cache directory.

    This is what [os.path.join] yields for an id that is a plain file name
    ([is_file_name] below, see [posixpath_join_file_name]). For any other
    id the joined path leaves the directory: an id that starts with a
    slash replaces the directory altogether, and an id with [..] or with a
    slash inside resolves elsewhere. The pair does not follow such an id,
    so a statement that depends on where the file lies is made for file
    names only. *)
Record filename := Path { parent : string; name : string }.

Definition os_path_join (a b : string) : filename := Path a b.

(** [s.endswith("/")] *)
Fixpoint ends_with_sep (s : string) : bool :=
  match s with
  | EmptyString => false
  | String c EmptyString => Ascii.eqb c "/"%char
  | String _ s' => ends_with_sep s'
  end.

(** [os.path.join(a, b)] of [posixpath], on the strings themselves: an
    absolute [b] discards [a]. *)
Definition posixpath_join (a b : string) : string :=
  if String.prefix "/" b then b
  else if String.eqb a "" || ends_with_sep a then a +:+ b
  else a +:+ "/" +:+ b.

(** An id that is one path component: not empty, not [.] or [..], and
    without a slash or a NUL. Joined to a directory it names an entry of
    that directory and nothing else. *)
Definition is_file_name (s : string) : bool :=
  negb (String.eqb s "") && negb (String.eqb s ".")
  && negb (String.eqb s "..")
  && forallb (fun c => negb (Ascii.eqb c "/"%char)
                       && negb (Ascii.eqb c "000"%char))
       (list_ascii_of_string s).

(** The GET request of [download_asset]: the two arguments of [urljoin]
    and the headers. *)
Record request := Request {
  req_base : string;
  req_ref : string;
  req_headers : list (string * string)
}.

(** What [session.get] and [response.read] produce. [body = None] means
    that reading the body raises [aiohttp.ClientError]. *)
Inductive http_outcome :=
| TransportError
| Response (status : Z) (content_type : string) (body : option bytes).

Inductive level := INFO | ERROR.

Inductive log_arg :=
| ArgStr (s : string)
| ArgInt (z : Z)
| ArgExc (e : exn).

Inductive event :=
| Get (r : request)
| Log (l : level) (fmt : string) (args : list log_arg).

Record world := World {
  fs : gmap string node;
  trace : list event
}.

Inductive open_mode := RB | WB.

(** The part of the outside that the hub does not control. Every oracle
    sees the world at the moment of the call, so its answer may depend on
    everything that happened before.
    - [remote]: the outcome of one GET;
    - [open_fault], [read_fault]: opening or reading an existing file fails
      (permissions, the file vanished, ...);
    - [write_fault]: [Some partial] means the write fails and leaves
      [partial] in the file;
    - [rmtree_fault]: [Some gone] means the recursive deletion fails after
      the entries [gone] have been removed;
    - [makedirs_fault]: creating the directory fails. *)
Record environment := Environment {
  remote : world -> request -> http_outcome;
  open_fault : world -> open_mode -> filename -> bool;
  read_fault : world -> filename -> bool;
  write_fault : world -> filename -> bytes -> option bytes;
  rmtree_fault : world -> string -> option (list string);
  makedirs_fault : world -> string -> bool
}.

(** ** The monad *)

Inductive outcome (A : Type) :=
| Ok (a : A)
| Exc (e : exn).
Arguments Ok {A} a.
Arguments Exc {A} e.

Definition M (A : Type) : Type := world -> outcome A * world.

Definition ret {A} (a : A) : M A := fun w => (Ok a, w).

Definition raise {A} (e : exn) : M A := fun w => (Exc e, w).

Definition bind {A B} (m : M A) (k : A -> M B) : M B :=
  fun w => match m w with
           | (Ok a, w') => k a w'
           | (Exc e, w') => (Exc e, w')
           end.

Notation "x <- m ;; k" := (bind m (fun x => k))
  (at level 100, m at next level, right associativity).
Notation "m ;; k" := (bind m (fun _ => k))
  (at level 100, right associativity).

(** [try: body except e: handler e]; a handler that does not match
    re-raises. *)
Definition try_except {A} (body : M A) (handler : exn -> M A) : M A :=
  fun w => match body w with
           | (Ok a, w') => (Ok a, w')
           | (Exc e, w') => handler e w'
           end.

(** [for x in l: body x] *)
Fixpoint for_each {A} (l : list A) (body : A -> M unit) : M unit :=
  match l with
  | [] => ret tt
  | x :: l' => body x ;; for_each l' body
  end.

(** ** Logging, file system and HTTP primitives *)

Definition emit (ev : event) : M unit :=
  fun w => (Ok tt, World (fs w) (trace w ++ [ev])).

Definition _LOGGER_info (fmt : string) (args : list log_arg) : M unit :=
  emit (Log INFO fmt args).

Definition _LOGGER_error (fmt : string) (args : list log_arg) : M unit :=
  emit (Log ERROR fmt args).

Definition lookup_entry (t : gmap string node) (p : filename) : option entry :=
  match t !! parent p with
  | Some (Directory es) => es !! name p
  | _ => None
  end.

Definition isfile (t : gmap string node) (p : filename) : bool :=
  match lookup_entry t p with
  | Some (RegularFile _) => true
  | _ => false
  end.

Definition isdir (t : gmap string node) (d : string) : bool :=
  match t !! d with
  | Some (Directory _) => true
  | _ => false
  end.

(** [os.path.isfile] and [os.path.isdir] never raise. *)
Definition os_path_isfile (p : filename) : M bool :=
  fun w => (Ok (isfile (fs w) p), w).

Definition os_path_isdir (d : string) : M bool :=
  fun w => (Ok (isdir (fs w) d), w).

(** Replace the entry [name p] of the directory [parent p]. *)
Definition store (p : filename) (c : bytes) (t : gmap string node)
  : gmap string node :=
  match t !! parent p with
  | Some (Directory es) =>
      <[parent p := Directory (<[name p := RegularFile c]> es)]> t
  | _ => t
  end.

(** [aiofiles.open(p, "rb")] *)
Definition aiofiles_open_rb (E : environment) (p : filename) : M unit :=
  fun w => match lookup_entry (fs w) p with
           | Some (RegularFile _) =>
               if open_fault E w RB p then (Exc OSError, w) else (Ok tt, w)
           | _ => (Exc OSError, w)
           end.

(** [f.read()] on a file opened with [aiofiles_open_rb] *)
Definition f_read (E : environment) (p : filename) : M bytes :=
  fun w => match lookup_entry (fs w) p with
           | Some (RegularFile c) =>
               if read_fault E w p then (Exc OSError, w) else (Ok c, w)
           | _ => (Exc OSError, w)
           end.

(** [aiofiles.open(p, "wb")]: creates the file, or truncates it. *)
Definition aiofiles_open_wb (E : environment) (p : filename) : M unit :=
  fun w => match (fs w) !! parent p with
           | Some (Directory es) =>
               match es !! name p with
               | Some Subdirectory => (Exc OSError, w)
               | _ =>
                   if open_fault E w WB p then (Exc OSError, w)
                   else (Ok tt, World (store p [] (fs w)) (trace w))
               end
           | _ => (Exc OSError, w)
           end.

(** [f.write(data)] on a file opened with [aiofiles_open_wb] *)
Definition f_write (E : environment) (p : filename) (data : bytes) : M unit :=
  fun w => match write_fault E w p data with
           | Some partial =>
               (Exc OSError, World (store p partial (fs w)) (trace w))
           | None => (Ok tt, World (store p data (fs w)) (trace w))
           end.

(** [shutil.rmtree(d)]. The map has one key per directory the hub names, so
    the deletion removes that key with all its entries; directories nested
    below [d] under keys of their own, and the listing of the parent of
    [d], are not followed. *)
Definition shutil_rmtree (E : environment) (d : string) : M unit :=
  fun w => match (fs w) !! d with
           | Some (Directory es) =>
               match rmtree_fault E w d with
               | Some gone =>
                   (Exc OSError,
                    World (<[d := Directory (foldr delete es gone)]> (fs w))
                          (trace w))
               | None => (Ok tt, World (delete d (fs w)) (trace w))
               end
           | _ => (Exc OSError, w)
           end.

(** [os.makedirs(d, exist_ok=True)]. Only the key [d] is created; missing
    parents, which the call creates as well, are not followed. *)
Definition os_makedirs (E : environment) (d : string) : M unit :=
  fun w => match (fs w) !! d with
           | Some (Directory _) => (Ok tt, w)
           | Some NotADirectory => (Exc OSError, w)
           | None =>
               if makedirs_fault E w d then (Exc OSError, w)
               else (Ok tt, World (<[d := Directory ∅]> (fs w)) (trace w))
           end.

(** [session.get(url, headers)] followed by the use of the response: the
    request is recorded, then the environment answers. [aiohttp] reports a
    transport failure as [ClientError]. *)
Definition session_get (E : environment) (r : request)
  : M (Z * string * option bytes) :=
  fun w =>
    let w' := World (fs w) (trace w ++ [Get r]) in
    match remote E w r with
    | TransportError => (Exc ClientError, w')
    | Response st ct body => (Ok (st, ct, body), w')
    end.

(** [response.read()] *)
Definition response_read (body : option bytes) : M bytes :=
  match body with
  | Some b => ret b
  | None => raise ClientError
  end.

(** ** Constants *)

Definition _HEADER_API_KEY : string := "x-api-key".

Definition _ALLOWED_MIME_TYPES : list string := ["image/png"; "image/jpeg"].

(** Modelled from the spec: [const.py] is not among the sources. The spec
    gives the configuration inputs as [cacheEnabled: bool] (default false)
    and [pictureVariant] (default a standard thumbnail size). *)
Definition DEFAULT_CACHE_MODE : bool := false.
Definition DEFAULT_PICTURE_TYPE : string := "thumbnail".

(** ** The hub *)

(** [config_entry.options], restricted to the two keys the hub reads. *)
Record config_options := Options {
  CONF_CACHE_MODE : option bool;
  CONF_PICTURE_TYPE : option string
}.

(** An [ImmichHub] object. [hass_config_path] is [hass.config.path]. The
    attributes [cache_assets] and [asset_cache_path] do not exist ([None])
    until they are assigned. *)
Record ImmichHub := Hub {
  host : string;
  api_key : string;
  hass_config_path : string -> string;
  options : config_options;
  cache_assets : option bool;
  asset_cache_path : option string
}.

(** [ImmichHub.__init__] *)
Definition __init__ (host api_key : string) (hass : string -> string)
  (config_entry : config_options) : ImmichHub :=
  Hub host api_key hass config_entry None None.

(** [self.asset_cache_path] and [self.cache_assets] as expressions. *)
Definition get_asset_cache_path (self : ImmichHub) : M string :=
  match asset_cache_path self with
  | Some p => ret p
  | None => raise (AttributeError "asset_cache_path")
  end.

Definition get_cache_assets (self : ImmichHub) : M bool :=
  match cache_assets self with
  | Some b => ret b
  | None => raise (AttributeError "cache_assets")
  end.

(** Truth value of a [bytes | None]: [None] and [b""] are false. *)
Definition truthy (b : option bytes) : bool :=
  match b with
  | Some (_ :: _) => true
  | _ => false
  end.

(** [load_cached_asset], lines 133-142. *)
Definition load_cached_asset (E : environment) (self : ImmichHub)
  (asset_id : string) : M (option bytes) :=
  dir <- get_asset_cache_path self ;;
  let filename := os_path_join dir asset_id in
  is_file <- os_path_isfile filename ;;
  if (is_file : bool) then
    try_except
      (aiofiles_open_rb E filename ;;
       _LOGGER_info "Serving asset from cache: %s" [ArgStr asset_id] ;;
       data <- f_read E filename ;;
       ret (Some data))
      (fun e =>
         _LOGGER_error "Unable load cached assed: %s %s"
           [ArgStr asset_id; ArgExc e] ;;
         ret None)
  else ret None.

(** The request that [download_asset] builds, lines 109, 114 and 115. *)
Definition thumbnail_request (self : ImmichHub) (asset_id : string) : request :=
  let picture_type :=
    default DEFAULT_PICTURE_TYPE (CONF_PICTURE_TYPE (options self)) in
  Request (host self)
    ("/api/assets/" +:+ asset_id +:+ "/thumbnail?size=" +:+ picture_type)
    [(_HEADER_API_KEY, api_key self)].

(** The remote half of [download_asset], lines 109-131: what the method
    does once the cache lookup has produced nothing. *)
Definition fetch_asset (E : environment) (self : ImmichHub)
  (asset_id : string) : M (option bytes) :=
  try_except
    (_LOGGER_info "Downloading uncached asset from Immich: %s"
       [ArgStr asset_id] ;;
     response <- session_get E (thumbnail_request self asset_id) ;;
     let '(status, content_type, body) := response in
     if negb (status =? 200)%Z then
       _LOGGER_error "Error from API: status=%d" [ArgInt status] ;;
       ret None
     else if negb (bool_decide (content_type ∈ _ALLOWED_MIME_TYPES)) then
       _LOGGER_error "MIME type is not supported: %s" [ArgStr content_type] ;;
       ret None
     else
       data <- response_read body ;;
       ret (Some data))
    (fun exception =>
       match exception with
       | ClientError =>
           _LOGGER_error "Error connecting to the API: %s" [ArgExc exception] ;;
           raise CannotConnect
       | _ => raise exception
       end).

(** [download_asset], lines 102-131. *)
Definition download_asset (E : environment) (self : ImmichHub)
  (asset_id : string) : M (option bytes) :=
  asset_bytes <- load_cached_asset E self asset_id ;;
  if truthy asset_bytes then ret asset_bytes
  else fetch_asset E self asset_id.

(** The body of the loop of [cache_album_assets], lines 149-158. *)
Definition cache_album_asset (E : environment) (self : ImmichHub)
  (asset_id : string) : M unit :=
  dir <- get_asset_cache_path self ;;
  let filename := os_path_join dir asset_id in
  is_file <- os_path_isfile filename ;;
  if negb is_file then
    asset_bytes <- download_asset E self asset_id ;;
    if truthy asset_bytes then
      try_except
        (aiofiles_open_wb E filename ;;
         _LOGGER_info "Caching asset: %s" [ArgStr asset_id] ;;
         f_write E filename (default [] asset_bytes))
        (fun e =>
           _LOGGER_error "Unable to cache asset: %s %s"
             [ArgStr asset_id; ArgExc e])
    else ret tt
  else ret tt.

(** [cache_album_assets], lines 144-158. *)
Definition cache_album_assets (E : environment) (self : ImmichHub)
  (album_assets : list string) : M unit :=
  enabled <- get_cache_assets self ;;
  if (enabled : bool) then for_each album_assets (cache_album_asset E self)
  else ret tt.

(** Lines 164-169 of [initialize_asset_cache]: an existing cache directory
    is deleted; a failure is logged and goes no further. *)
Definition clear_asset_cache (E : environment) (dir : string) : M unit :=
  is_dir <- os_path_isdir dir ;;
  if (is_dir : bool) then
    try_except
      (shutil_rmtree E dir ;;
       _LOGGER_info "Cleared asset cache" [])
      (fun e =>
         _LOGGER_error "Unable to clear asset cache directory: %s" [ArgExc e])
  else ret tt.

(** Lines 171-176 of [initialize_asset_cache]: with caching enabled the
    directory is created; a failure is logged and goes no further. *)
Definition create_asset_cache (E : environment) (enabled : bool)
  (dir : string) : M unit :=
  if enabled then
    try_except
      (os_makedirs E dir ;;
       _LOGGER_info "Created asset cache directory: " [ArgStr dir])
      (fun e =>
         _LOGGER_error "Unable to create asset cache directory: %s %s"
           [ArgStr dir; ArgExc e])
  else ret tt.

(** The hub after the two assignments of lines 161 and 162. *)
Definition assign_cache_attributes (self : ImmichHub) : ImmichHub :=
  Hub (host self) (api_key self) (hass_config_path self) (options self)
      (Some (default DEFAULT_CACHE_MODE (CONF_CACHE_MODE (options self))))
      (Some (hass_config_path self "immich_cache")).

(** [initialize_asset_cache], lines 160-176. The method assigns the two
    attributes first; the hub it returns is [self] after the call. *)
Definition initialize_asset_cache (E : environment) (self : ImmichHub)
  : M ImmichHub :=
  let enabled := default DEFAULT_CACHE_MODE (CONF_CACHE_MODE (options self)) in
  let dir := hass_config_path self "immich_cache" in
  clear_asset_cache E dir ;;
  create_asset_cache E enabled dir ;;
  ret (assign_cache_attributes self).

(** ** Observations on worlds *)

(** The GET requests issued so far, oldest first. *)
Definition requests (t : list event) : list request :=
  omap (fun ev => match ev with Get r => Some r | Log _ _ _ => None end) t.

(** The world after the events [evs] were appended to the trace. *)
Definition logged (w : world) (evs : list event) : world :=
  World (fs w) (trace w ++ evs).

(** The log records of the two methods that read and fetch. *)
Definition serving (asset_id : string) : event :=
  Log INFO "Serving asset from cache: %s" [ArgStr asset_id].

Definition unable_load (asset_id : string) : event :=
  Log ERROR "Unable load cached assed: %s %s" [ArgStr asset_id; ArgExc OSError].

Definition downloading (asset_id : string) : event :=
  Log INFO "Downloading uncached asset from Immich: %s" [ArgStr asset_id].

Definition error_connecting : event :=
  Log ERROR "Error connecting to the API: %s" [ArgExc ClientError].

(** The log records of [initialize_asset_cache]. *)
Definition cleared : event := Log INFO "Cleared asset cache" [].

Definition unable_clear : event :=
  Log ERROR "Unable to clear asset cache directory: %s" [ArgExc OSError].

Definition created (dir : string) : event :=
  Log INFO "Created asset cache directory: " [ArgStr dir].

Definition unable_create (dir : string) : event :=
  Log ERROR "Unable to create asset cache directory: %s %s"
    [ArgStr dir; ArgExc OSError].

(** What [download_asset] makes of the answer to its GET. *)
Definition asset_of_response (self : ImmichHub) (asset_id : string)
  (w : world) (o : http_outcome) : outcome (option bytes) * world :=
  let get := Get (thumbnail_request self asset_id) in
  match o with
  | TransportError =>
      (Exc CannotConnect, logged w [downloading asset_id; get; error_connecting])
  | Response st ct body =>
      if negb (st =? 200)%Z then
        (Ok None,
         logged w [downloading asset_id; get;
                   Log ERROR "Error from API: status=%d" [ArgInt st]])
      else if negb (bool_decide (ct ∈ _ALLOWED_MIME_TYPES)) then
        (Ok None,
         logged w [downloading asset_id; get;
                   Log ERROR "MIME type is not supported: %s" [ArgStr ct]])
      else
        match body with
        | Some b => (Ok (Some b), logged w [downloading asset_id; get])
        | None =>
            (Exc CannotConnect,
             logged w [downloading asset_id; get; error_connecting])
        end
  end.

(** ** A concrete installation

    The hub, worlds and environments on which the examples are run. *)

Definition cache_dir : string := "/config/immich_cache".

Definition hass (p : string) : string := "/config/" +:+ p.

(** A hub as [__init__] leaves it, with caching switched on or off. *)
Definition new_hub (enabled : bool) : ImmichHub :=
  __init__ "http://immich.local" "secret" hass (Options (Some enabled) None).

(** The same hub after [initialize_asset_cache]. *)
Definition hub (enabled : bool) : ImmichHub :=
  Hub "http://immich.local" "secret" hass (Options (Some enabled) None)
      (Some enabled) (Some cache_dir).

Definition no_cache : world := World ∅ [].

Definition empty_cache : world := World {[cache_dir := Directory ∅]} [].

Definition cache_with (asset_id : string) (content : bytes) : world :=
  World {[cache_dir := Directory {[asset_id := RegularFile content]}]} [].

Definition asset_ref (asset_id : string) : string :=
  "/api/assets/" +:+ asset_id +:+ "/thumbnail?size=thumbnail".

(** A server that has a JPEG for every asset: one byte, [x0a] for asset A
    and [x0c] for the others. *)
Definition serve (r : request) : http_outcome :=
  if String.eqb (req_ref r) (asset_ref "A")
  then Response 200 "image/jpeg" (Some [Byte.x0a])
  else Response 200 "image/jpeg" (Some [Byte.x0c]).

(** The same server, unreachable whenever asset B is requested. *)
Definition serve_but_B (r : request) : http_outcome :=
  if String.eqb (req_ref r) (asset_ref "B") then TransportError else serve r.

(** An environment without I/O errors around a given server. *)
Definition reliable (server : request -> http_outcome) : environment :=
  Environment (fun _ r => server r)
    (fun _ _ _ => false) (fun _ _ => false) (fun _ _ _ => None)
    (fun _ _ => None) (fun _ _ => false).

(** An environment in which the recursive deletion fails at once. *)
Definition undeletable (server : request -> http_outcome) : environment :=
  Environment (fun _ r => server r)
    (fun _ _ _ => false) (fun _ _ => false) (fun _ _ _ => None)
    (fun _ _ => Some []) (fun _ _ => false).

(** An environment in which files cannot be opened for reading. *)
Definition unreadable (server : request -> http_outcome) : environment :=
  Environment (fun _ r => server r)
    (fun _ m _ => match m with RB => true | WB => false end)
    (fun _ _ => false) (fun _ _ _ => None)
    (fun _ _ => None) (fun _ _ => false).

(** An environment in which directories cannot be created. *)
Definition uncreatable (server : request -> http_outcome) : environment :=
  Environment (fun _ r => server r)
    (fun _ _ _ => false) (fun _ _ => false) (fun _ _ _ => None)
    (fun _ _ => None) (fun _ _ => true).

(** The log records of the guarded write of [cache_album_assets]. *)
Definition caching (asset_id : string) : event :=
  Log INFO "Caching asset: %s" [ArgStr asset_id].

Definition unable_cache (asset_id : string) : event :=
  Log ERROR "Unable to cache asset: %s %s" [ArgStr asset_id; ArgExc OSError].

(** An environment in which files cannot be opened for writing. *)
Definition unwritable (server : request -> http_outcome) : environment :=
  Environment (fun _ r => server r)
    (fun _ m _ => match m with RB => false | WB => true end)
    (fun _ _ => false) (fun _ _ _ => None)
    (fun _ _ => None) (fun _ _ => false).

(** An environment in which every write breaks off and leaves one byte,
    [xff], in the file. *)
Definition truncating (server : request -> http_outcome) : environment :=
  Environment (fun _ r => server r)
    (fun _ _ _ => false) (fun _ _ => false) (fun _ _ _ => Some [Byte.xff])
    (fun _ _ => None) (fun _ _ => false).

(** ** The JSON endpoints

    The methods [authenticate], [get_my_user_info], [get_asset_info],
    [list_favorite_images], [list_all_albums] and [list_album_images] do
    not touch the file system: each issues one HTTP request and inspects
    the JSON answer. They live in a state-and-exception monad whose state
    is the trace of requests and log records. The exception type has, in
    addition to the two classes the cache methods need, [ApiError] and the
    built-in exceptions that subscripting and [dict.get] raise on a JSON
    value of the wrong shape. *)
Module Api.

(** A decoded JSON document, as [response.json()] returns it. Numbers are
    integers: the methods never compute with them. *)
#[warnings="-register-all"] Inductive json :=
| JNull
| JBool (b : bool)
| JNum (n : Z)
| JStr (s : string)
| JList (items : list json)
| JDict (fields : gmap string json).

Inductive exn :=
| ClientError
| ValueError
| KeyError (key : string)
| TypeError
| AttributeError (attr : string)
| CannotConnect
| ApiError.

(** What [response.text()] or [response.json()] gives: the value, an
    [aiohttp.ClientError] (broken payload, wrong content type) or a
    [ValueError] (the body does not decode). *)
Inductive body (A : Type) :=
| Body (a : A)
| BodyClientError
| BodyValueError.
Arguments Body {A} a.
Arguments BodyClientError {A}.
Arguments BodyValueError {A}.

Record response := Response {
  status : Z;
  text : body string;
  json_body : body json
}.

Inductive answer :=
| TransportError
| Answer (r : response).

Inductive method := GET | POST.

(** A request: the method, the two arguments of [urljoin], the headers
    and the form data. *)
Record request := Request {
  req_method : method;
  req_base : string;
  req_ref : string;
  req_headers : list (string * string);
  req_data : list (string * string)
}.

Inductive log_arg :=
| ArgStr (s : string)
| ArgExc (e : exn).

Inductive event :=
| Call (r : request)
| Log (l : level) (fmt : string) (args : list log_arg).

(** The remote server: its answer may depend on everything that happened
    before. *)
Definition server : Type := list event -> request -> answer.

Inductive outcome (A : Type) :=
| Ok (a : A)
| Exc (e : exn).
Arguments Ok {A} a.
Arguments Exc {A} e.

Definition M (A : Type) : Type := list event -> outcome A * list event.

Definition ret {A} (a : A) : M A := fun t => (Ok a, t).

Definition raise {A} (e : exn) : M A := fun t => (Exc e, t).

Definition bind {A B} (m : M A) (k : A -> M B) : M B :=
  fun t => match m t with
           | (Ok a, t') => k a t'
           | (Exc e, t') => (Exc e, t')
           end.

#[warnings="-notation-overridden"] Notation "x <- m ;; k" :=
  (bind m (fun x => k))
  (at level 100, m at next level, right associativity).
#[warnings="-notation-overridden"] Notation "m ;; k" :=
  (bind m (fun _ => k))
  (at level 100, right associativity).

Definition try_except {A} (body : M A) (handler : exn -> M A) : M A :=
  fun t => match body t with
           | (Ok a, t') => (Ok a, t')
           | (Exc e, t') => handler e t'
           end.

Definition _LOGGER_error (fmt : string) (args : list log_arg) : M unit :=
  fun t => (Ok tt, t ++ [Log ERROR fmt args]).

(** [session.get] and [session.post]: the request is recorded, then the
    server answers; a transport failure is an [aiohttp.ClientError]. *)
Definition session_request (S : server) (r : request) : M response :=
  fun t => match S t r with
           | TransportError => (Exc ClientError, t ++ [Call r])
           | Answer resp => (Ok resp, t ++ [Call r])
           end.

Definition read_body {A} (b : body A) : M A :=
  match b with
  | Body a => ret a
  | BodyClientError => raise ClientError
  | BodyValueError => raise ValueError
  end.

(** [response.text()] and [response.json()] *)
Definition response_text (resp : response) : M string :=
  read_body (text resp).

Definition response_json (resp : response) : M json :=
  read_body (json_body resp).

(** Truth value of a JSON value. *)
Definition truthy (v : json) : bool :=
  match v with
  | JNull => false
  | JBool b => b
  | JNum n => negb (n =? 0)%Z
  | JStr s => negb (String.eqb s "")
  | JList items => match items with [] => false | _ :: _ => true end
  | JDict fields => negb (bool_decide (fields = ∅))
  end.

(** [v.get(key)]: only a dict has the method. *)
Definition dict_get (v : json) (key : string) : M json :=
  match v with
  | JDict fields => ret (default JNull (fields !! key))
  | _ => raise (AttributeError "get")
  end.

(** [v[key]] with a string key: a missing key is a [KeyError], a value
    that is not a dict a [TypeError]. *)
Definition subscript (v : json) (key : string) : M json :=
  match v with
  | JDict fields =>
      match fields !! key with
      | Some x => ret x
      | None => raise (KeyError key)
      end
  | _ => raise TypeError
  end.

(** The elements [for asset in v] runs over: the items of a list, the
    keys of a dict, the characters of a string. *)
Definition elements (v : json) : M (list json) :=
  match v with
  | JList items => ret items
  | JDict fields => ret (JStr <$> (map_to_list fields).*1)
  | JStr s =>
      ret ((fun c => JStr (String c EmptyString)) <$> list_ascii_of_string s)
  | _ => raise TypeError
  end.

(** [v == s] for a string literal [s]. *)
Definition eq_str (v : json) (s : string) : bool :=
  match v with
  | JStr s' => String.eqb s' s
  | _ => false
  end.

(** [[asset for asset in assets if asset["type"] == "IMAGE"]] *)
Fixpoint filter_images (assets : list json) : M (list json) :=
  match assets with
  | [] => ret []
  | asset :: assets' =>
      type <- subscript asset "type" ;;
      filtered <- filter_images assets' ;;
      ret (if eq_str type "IMAGE" then asset :: filtered else filtered)
  end.

(** The [except aiohttp.ClientError] clause that closes every method. *)
Definition except_ClientError {A} (exception : exn) : M A :=
  match exception with
  | ClientError =>
      _LOGGER_error "Error connecting to the API: %s" [ArgExc exception] ;;
      raise CannotConnect
  | _ => raise exception
  end.

(** The headers of every JSON request. *)
Definition json_headers (self : ImmichHub) : list (string * string) :=
  [("Accept", "application/json"); (_HEADER_API_KEY, api_key self)].

(** [authenticate], lines 37-60. *)
Definition authenticate (S : server) (self : ImmichHub) : M bool :=
  try_except
    (response <- session_request S
                   (Request POST (host self) "/api/auth/validateToken"
                      (json_headers self) []) ;;
     if negb (status response =? 200)%Z then
       raw_result <- response_text response ;;
       _LOGGER_error "Error from API: body=%s" [ArgStr raw_result] ;;
       ret false
     else
       auth_result <- response_json response ;;
       auth_status <- dict_get auth_result "authStatus" ;;
       if negb (truthy auth_status) then
         raw_result <- response_text response ;;
         _LOGGER_error "Error from API: body=%s" [ArgStr raw_result] ;;
         ret false
       else ret true)
    except_ClientError.

(** [get_my_user_info], lines 62-80. *)
Definition get_my_user_info (S : server) (self : ImmichHub) : M json :=
  try_except
    (response <- session_request S
                   (Request GET (host self) "/api/users/me"
                      (json_headers self) []) ;;
     if negb (status response =? 200)%Z then
       raw_result <- response_text response ;;
       _LOGGER_error "Error from API: body=%s" [ArgStr raw_result] ;;
       raise ApiError
     else
       user_info <- response_json response ;;
       ret user_info)
    except_ClientError.

(** [get_asset_info], lines 82-100. *)
Definition get_asset_info (S : server) (self : ImmichHub)
  (asset_id : string) : M json :=
  try_except
    (response <- session_request S
                   (Request GET (host self) ("/api/assets/" +:+ asset_id)
                      (json_headers self) []) ;;
     if negb (status response =? 200)%Z then
       raw_result <- response_text response ;;
       _LOGGER_error "Error from API: body=%s" [ArgStr raw_result] ;;
       raise ApiError
     else
       asset_info <- response_json response ;;
       ret asset_info)
    except_ClientError.

(** [list_favorite_images], lines 178-202. *)
Definition list_favorite_images (S : server) (self : ImmichHub)
  : M (list json) :=
  try_except
    (response <- session_request S
                   (Request POST (host self) "/api/search/metadata"
                      (json_headers self) [("isFavorite", "true")]) ;;
     if negb (status response =? 200)%Z then
       raw_result <- response_text response ;;
       _LOGGER_error "Error from API: body=%s" [ArgStr raw_result] ;;
       raise ApiError
     else
       favorites <- response_json response ;;
       favorites_assets <- subscript favorites "assets" ;;
       assets <- subscript favorites_assets "items" ;;
       items <- elements assets ;;
       filtered_assets <- filter_images items ;;
       ret filtered_assets)
    except_ClientError.

(** [list_all_albums], lines 204-222. *)
Definition list_all_albums (S : server) (self : ImmichHub) : M json :=
  try_except
    (response <- session_request S
                   (Request GET (host self) "/api/albums"
                      (json_headers self) []) ;;
     if negb (status response =? 200)%Z then
       raw_result <- response_text response ;;
       _LOGGER_error "Error from API: body=%s" [ArgStr raw_result] ;;
       raise ApiError
     else
       album_list <- response_json response ;;
       ret album_list)
    except_ClientError.

(** [list_album_images], lines 224-247. *)
Definition list_album_images (S : server) (self : ImmichHub)
  (album_id : string) : M (list json) :=
  try_except
    (response <- session_request S
                   (Request GET (host self) ("/api/albums/" +:+ album_id)
                      (json_headers self) []) ;;
     if negb (status response =? 200)%Z then
       raw_result <- response_text response ;;
       _LOGGER_error "Error from API: body=%s" [ArgStr raw_result] ;;
       raise ApiError
     else
       album_info <- response_json response ;;
       assets <- subscript album_info "assets" ;;
       items <- elements assets ;;
       filtered_assets <- filter_images items ;;
       ret filtered_assets)
    except_ClientError.

(** *** Observations *)

(** The skeleton the six methods share: one request; a status other than
    200 has its body logged and ends in [rejected]; status 200 has its
    JSON document decoded and handed on; the [except] clause closes it. *)
Definition exchange {A} (S : server) (r : request) (rejected : M A)
  (accepted : response -> json -> M A) : M A :=
  try_except
    (response <- session_request S r ;;
     if negb (status response =? 200)%Z then
       raw_result <- response_text response ;;
       _LOGGER_error "Error from API: body=%s" [ArgStr raw_result] ;;
       rejected
     else
       document <- response_json response ;;
       accepted response document)
    except_ClientError.

(** The request of each method. *)
Definition authenticate_request (self : ImmichHub) : request :=
  Request POST (host self) "/api/auth/validateToken" (json_headers self) [].

Definition user_info_request (self : ImmichHub) : request :=
  Request GET (host self) "/api/users/me" (json_headers self) [].

Definition asset_info_request (self : ImmichHub) (asset_id : string)
  : request :=
  Request GET (host self) ("/api/assets/" +:+ asset_id) (json_headers self) [].

Definition favorites_request (self : ImmichHub) : request :=
  Request POST (host self) "/api/search/metadata" (json_headers self)
    [("isFavorite", "true")].

Definition albums_request (self : ImmichHub) : request :=
  Request GET (host self) "/api/albums" (json_headers self) [].

Definition album_request (self : ImmichHub) (album_id : string) : request :=
  Request GET (host self) ("/api/albums/" +:+ album_id) (json_headers self) [].

(** The two records an exchange can leave in the log. *)
Definition error_from_api (raw : string) : event :=
  Log ERROR "Error from API: body=%s" [ArgStr raw].

Definition error_connecting : event :=
  Log ERROR "Error connecting to the API: %s" [ArgExc ClientError].


(** The requests issued so far, oldest first. *)
Definition calls (t : list event) : list request :=
  omap (fun ev => match ev with Call r => Some r | Log _ _ _ => None end) t.

(** An asset record that the image filter keeps. *)
Definition is_image (asset : json) : bool :=
  match asset with
  | JDict fields =>
      match fields !! "type" with
      | Some type => eq_str type "IMAGE"
      | None => false
      end
  | _ => false
  end.

(** An asset record on which [asset["type"]] succeeds. *)
Definition has_type (asset : json) : bool :=
  match asset with
  | JDict fields => bool_decide (is_Some (fields !! "type"))
  | _ => false
  end.

(** *** A concrete server *)

Definition asset (id type : string) : json :=
  JDict {["id" := JStr id; "type" := JStr type]}.

Definition album : json :=
  JDict {["albumName" := JStr "Holidays";
          "assets" := JList [asset "a1" "IMAGE"; asset "v1" "VIDEO";
                             asset "a2" "IMAGE"]]}.

(** An album whose second asset has no type. *)
Definition broken_album : json :=
  JDict {["assets" := JList [asset "a1" "IMAGE";
                             JDict {["id" := JStr "x"]}]]}.

Definition ok (v : json) : answer := Answer (Response 200 (Body "") (Body v)).

Definition always (a : answer) : server := fun _ _ => a.

End Api.

(** ** Basic facts *)

Ltac unfold_monad :=
  unfold try_except, bind, ret, raise, _LOGGER_info, _LOGGER_error, emit,
    os_path_isfile, os_path_isdir, get_asset_cache_path, get_cache_assets,
    session_get, response_read, logged in *.

Lemma logged_logged w evs evs' :
  logged (logged w evs) evs' = logged w (evs ++ evs').
Proof. unfold logged; simpl. by rewrite <- app_assoc. Qed.

Lemma logged_nil w : logged w [] = w.
Proof. destruct w; unfold logged; simpl. by rewrite app_nil_r. Qed.

Lemma requests_app t t' : requests (t ++ t') = requests t ++ requests t'.
Proof. apply omap_app. Qed.

Lemma isfile_lookup_entry t p :
  isfile t p = true <-> exists c, lookup_entry t p = Some (RegularFile c).
Proof.
  unfold isfile. split.
  - destruct (lookup_entry t p) as [[c|]|]; try discriminate. eauto.
  - intros [c ->]. reflexivity.
Qed.

(** [fetch_asset] logs, issues exactly one GET and turns the answer into
    its result. *)
Lemma fetch_asset_eq E self A w :
  fetch_asset E self A w =
  asset_of_response self A w
    (remote E (logged w [downloading A]) (thumbnail_request self A)).
Proof.
  unfold fetch_asset, asset_of_response, downloading, error_connecting.
  unfold_monad. simpl.
  destruct (remote E _ _) as [|st ct body]; simpl.
  - by rewrite <- !app_assoc.
  - destruct (negb (st =? 200)%Z); simpl.
    { by rewrite <- !app_assoc. }
    destruct (negb (bool_decide (ct ∈ _ALLOWED_MIME_TYPES))); simpl.
    { by rewrite <- !app_assoc. }
    destruct body; simpl; by rewrite <- ?app_assoc.
Qed.

Lemma asset_of_response_fs self A w o :
  fs (snd (asset_of_response self A w o)) = fs w.
Proof.
  unfold asset_of_response.
  repeat case_match; reflexivity.
Qed.

Lemma asset_of_response_requests self A w o :
  requests (trace (snd (asset_of_response self A w o))) =
  requests (trace w) ++ [thumbnail_request self A].
Proof.
  unfold asset_of_response.
  repeat case_match; simpl; by rewrite requests_app.
Qed.

Lemma asset_of_response_exc self A w o e :
  fst (asset_of_response self A w o) = Exc e -> e = CannotConnect.
Proof.
  unfold asset_of_response.
  repeat case_match; simpl; congruence.
Qed.

(** The cache lookup on a hub whose cache path is assigned: it never
    raises, and returns the content only when the file opens and reads. *)
Lemma load_cached_asset_eq E self dir A w :
  asset_cache_path self = Some dir ->
  load_cached_asset E self A w =
  match lookup_entry (fs w) (os_path_join dir A) with
  | Some (RegularFile c) =>
      if open_fault E w RB (os_path_join dir A) then
        (Ok None, logged w [unable_load A])
      else if read_fault E (logged w [serving A]) (os_path_join dir A) then
        (Ok None, logged w [serving A; unable_load A])
      else (Ok (Some c), logged w [serving A])
  | _ => (Ok None, w)
  end.
Proof.
  intros Hdir.
  unfold load_cached_asset, aiofiles_open_rb, f_read, serving, unable_load.
  unfold_monad. rewrite Hdir. simpl. unfold isfile.
  destruct (lookup_entry (fs w) (os_path_join dir A)) as [[c|]|] eqn:Hl;
    simpl; try reflexivity.
  rewrite Hl.
  destruct (open_fault E w RB _); simpl; [reflexivity|].
  rewrite Hl.
  destruct (read_fault E _ _); simpl; [|reflexivity].
  by rewrite <- app_assoc.
Qed.

Lemma load_cached_asset_fs E self A w :
  fs (snd (load_cached_asset E self A w)) = fs w.
Proof.
  destruct (asset_cache_path self) as [dir|] eqn:Hdir.
  - rewrite (load_cached_asset_eq _ _ dir) by done.
    repeat case_match; reflexivity.
  - unfold load_cached_asset. unfold_monad. by rewrite Hdir.
Qed.

Lemma load_cached_asset_requests E self A w :
  requests (trace (snd (load_cached_asset E self A w))) = requests (trace w).
Proof.
  destruct (asset_cache_path self) as [dir|] eqn:Hdir.
  - rewrite (load_cached_asset_eq _ _ dir) by done.
    repeat case_match; simpl; rewrite ?requests_app; simpl;
      by rewrite ?app_nil_r.
  - unfold load_cached_asset. unfold_monad. by rewrite Hdir.
Qed.

Lemma load_cached_asset_ok E self dir A w :
  asset_cache_path self = Some dir ->
  exists r, fst (load_cached_asset E self A w) = Ok r.
Proof.
  intros Hdir. rewrite (load_cached_asset_eq _ _ dir) by done.
  repeat case_match; simpl; eauto.
Qed.

(** [download_asset] is the lookup, followed by the fetch when the lookup
    result is not truthy. *)
Lemma download_asset_eq E self A w :
  download_asset E self A w =
  match load_cached_asset E self A w with
  | (Ok r, w') => if truthy r then (Ok r, w') else fetch_asset E self A w'
  | (Exc e, w') => (Exc e, w')
  end.
Proof.
  unfold download_asset, bind, ret.
  destruct (load_cached_asset E self A w) as [[r|e] w']; [|reflexivity].
  by destruct (truthy r).
Qed.

Lemma download_asset_fs E self A w :
  fs (snd (download_asset E self A w)) = fs w.
Proof.
  unfold download_asset, bind, ret.
  pose proof (load_cached_asset_fs E self A w) as Hl.
  destruct (load_cached_asset E self A w) as [[r|e] w']; simpl in *; [|done].
  destruct (truthy r); simpl; [done|].
  rewrite fetch_asset_eq, asset_of_response_fs. done.
Qed.

Lemma download_asset_exc E self dir A w e :
  asset_cache_path self = Some dir ->
  fst (download_asset E self A w) = Exc e -> e = CannotConnect.
Proof.
  intros Hdir. unfold download_asset, bind, ret.
  destruct (load_cached_asset_ok E self dir A w Hdir) as [r Hr].
  destruct (load_cached_asset E self A w) as [[r'|e'] w']; simpl in *;
    [|congruence].
  destruct (truthy r'); simpl; [congruence|].
  rewrite fetch_asset_eq. apply asset_of_response_exc.
Qed.

Lemma load_cached_asset_miss E self dir A w :
  asset_cache_path self = Some dir ->
  isfile (fs w) (os_path_join dir A) = false ->
  load_cached_asset E self A w = (Ok None, w).
Proof.
  intros Hdir Hfile. rewrite (load_cached_asset_eq _ _ dir) by done.
  unfold isfile in Hfile.
  destruct (lookup_entry _ _) as [[c|]|]; done.
Qed.

(** ** The single-asset path: [download_asset] *)

(** C5. Miss-then-fetch: when caching is enabled and [directory/A] is not
    a file, [download_asset] is exactly the remote fetch: it returns what
    the fetch returns, the trace gains exactly one GET (the thumbnail
    request for A), and the file system is left as it was, so the method
    does not create [directory/A]. *)
Theorem download_asset_miss_then_fetch E self dir A w :
  cache_assets self = Some true ->
  asset_cache_path self = Some dir ->
  isfile (fs w) (os_path_join dir A) = false ->
  download_asset E self A w = fetch_asset E self A w /\
  requests (trace (snd (download_asset E self A w))) =
    requests (trace w) ++ [thumbnail_request self A] /\
  fs (snd (download_asset E self A w)) = fs w /\
  isfile (fs (snd (download_asset E self A w))) (os_path_join dir A) = false.
Proof.
  intros _ Hdir Hfile.
  assert (download_asset E self A w = fetch_asset E self A w) as Heq.
  { rewrite download_asset_eq, (load_cached_asset_miss _ _ dir) by done.
    reflexivity. }
  rewrite Heq, fetch_asset_eq, asset_of_response_requests,
    asset_of_response_fs.
  auto.
Qed.

Lemma download_asset_miss_then_fetch_witness :
  download_asset (reliable serve) (hub true) "A" empty_cache =
    fetch_asset (reliable serve) (hub true) "A" empty_cache /\
  fst (download_asset (reliable serve) (hub true) "A" empty_cache) =
    Ok (Some [Byte.x0a]) /\
  requests (trace (snd (download_asset (reliable serve) (hub true) "A"
                          empty_cache))) =
    [thumbnail_request (hub true) "A"] /\
  fs (snd (download_asset (reliable serve) (hub true) "A" empty_cache)) =
    fs empty_cache.
Proof.
  destruct (download_asset_miss_then_fetch (reliable serve) (hub true)
              cache_dir "A" empty_cache) as (H1 & H2 & H3 & _);
    [reflexivity | reflexivity | vm_compute; reflexivity |].
  split; [exact H1|].
  split; [vm_compute; reflexivity|].
  split; [exact H2 | exact H3].
Defined.

(** C4. The fetch returns bytes exactly when the answer has status 200, a
    content type in the allowed list and a readable body; an answer with
    another status or another content type yields [None], neither bytes
    nor an exception. The allowed list is [image/png] and [image/jpeg]. *)
Theorem fetch_asset_content_type_gate E self A w :
  let answer :=
    remote E (logged w [downloading A]) (thumbnail_request self A) in
  (forall b, fst (fetch_asset E self A w) = Ok (Some b) <->
     exists ct, answer = Response 200 ct (Some b) /\
                ct ∈ _ALLOWED_MIME_TYPES) /\
  (forall st ct body, answer = Response st ct body ->
     st <> 200 \/ ct ∉ _ALLOWED_MIME_TYPES ->
     fst (fetch_asset E self A w) = Ok None) /\
  (forall ct, ct ∈ _ALLOWED_MIME_TYPES <->
     ct = "image/png" \/ ct = "image/jpeg").
Proof.
  intros answer. rewrite fetch_asset_eq. fold answer.
  unfold asset_of_response.
  split; [|split].
  - intros b. split.
    + destruct answer as [|st ct body]; simpl; [discriminate|].
      destruct (Z.eqb_spec st 200) as [->|Hst]; simpl; [|discriminate].
      destruct (bool_decide_reflect (ct ∈ _ALLOWED_MIME_TYPES)) as [Hct|Hct];
        simpl; [|discriminate].
      destruct body as [b'|]; simpl; [|discriminate].
      intros [= ->]. eauto.
    + intros (ct & -> & Hct). simpl.
      rewrite bool_decide_eq_true_2 by done. reflexivity.
  - intros st ct body -> Hbad.
    destruct (Z.eqb_spec st 200) as [->|Hst]; simpl; [|reflexivity].
    destruct Hbad as [Hbad|Hbad]; [done|].
    rewrite bool_decide_eq_false_2 by done. reflexivity.
  - intros ct. unfold _ALLOWED_MIME_TYPES.
    rewrite !elem_of_cons, elem_of_nil. tauto.
Qed.

(** C2 (amended). Cache-hit precedence: when [directory/A] is a regular
    file whose content X is not empty and which opens and reads without
    error, [download_asset] returns X; the only event is the log record of
    the hit, so no GET is issued whatever the environment's server would
    answer. *)
Theorem download_asset_cache_hit E self dir A X w :
  asset_cache_path self = Some dir ->
  lookup_entry (fs w) (os_path_join dir A) = Some (RegularFile X) ->
  X <> [] ->
  open_fault E w RB (os_path_join dir A) = false ->
  read_fault E (logged w [serving A]) (os_path_join dir A) = false ->
  download_asset E self A w = (Ok (Some X), logged w [serving A]) /\
  requests (trace (snd (download_asset E self A w))) = requests (trace w).
Proof.
  intros Hdir Hfile HX Hopen Hread.
  assert (download_asset E self A w = (Ok (Some X), logged w [serving A]))
    as Heq.
  { rewrite download_asset_eq, (load_cached_asset_eq _ _ dir) by done.
    rewrite Hfile, Hopen, Hread.
    destruct X; [done | reflexivity]. }
  split; [exact Heq|].
  rewrite Heq. simpl. rewrite requests_app. simpl. apply app_nil_r.
Qed.

Lemma download_asset_cache_hit_witness :
  download_asset (reliable serve) (hub true) "A" (cache_with "A" [Byte.x01]) =
    (Ok (Some [Byte.x01]), logged (cache_with "A" [Byte.x01]) [serving "A"]) /\
  requests (trace (snd (download_asset (reliable serve) (hub true) "A"
                          (cache_with "A" [Byte.x01])))) = [].
Proof.
  apply (download_asset_cache_hit (reliable serve) (hub true) cache_dir "A"
           [Byte.x01] (cache_with "A" [Byte.x01]));
    [reflexivity | vm_compute; reflexivity | discriminate
    | reflexivity | reflexivity].
Defined.

(** C2, as stated, fails on an empty cache file: [directory/A] exists with
    content [b""], yet [download_asset] does not return [b""] without a
    request; it issues the GET and returns the server's bytes. It fails in
    the same way on a file that cannot be opened for reading. *)
Lemma download_asset_empty_file_goes_remote :
  lookup_entry (fs (cache_with "A" [])) (os_path_join cache_dir "A") =
    Some (RegularFile []) /\
  fst (download_asset (reliable serve) (hub true) "A" (cache_with "A" [])) =
    Ok (Some [Byte.x0a]) /\
  requests (trace (snd (download_asset (reliable serve) (hub true) "A"
                          (cache_with "A" [])))) =
    [thumbnail_request (hub true) "A"] /\
  ~ (fst (download_asset (reliable serve) (hub true) "A" (cache_with "A" []))
       = Ok (Some []) /\
     requests (trace (snd (download_asset (reliable serve) (hub true) "A"
                             (cache_with "A" [])))) = []) /\
  lookup_entry (fs (cache_with "A" [Byte.x01])) (os_path_join cache_dir "A") =
    Some (RegularFile [Byte.x01]) /\
  fst (download_asset (unreadable serve) (hub true) "A"
         (cache_with "A" [Byte.x01])) = Ok (Some [Byte.x0a]) /\
  requests (trace (snd (download_asset (unreadable serve) (hub true) "A"
                          (cache_with "A" [Byte.x01])))) =
    [thumbnail_request (hub true) "A"].
Proof.
  split; [vm_compute; reflexivity|].
  split; [vm_compute; reflexivity|].
  split; [vm_compute; reflexivity|].
  split; [intros [H _]; vm_compute in H; discriminate H|].
  split; [vm_compute; reflexivity|].
  split; vm_compute; reflexivity.
Qed.

(** C3. Propagation policy at [download_asset], on a hub whose cache path
    is assigned: the lookup never raises, and a file that fails to open or
    to read gives the miss [None]; the only exception [download_asset] can
    raise is [CannotConnect]; and when the lookup produced nothing and the
    transport fails, at the request or while the body is read, the method
    raises [CannotConnect] instead of returning [None]. *)
Theorem only_connection_failure_propagates E self dir A w :
  asset_cache_path self = Some dir ->
  let p := os_path_join dir A in
  let w' := snd (load_cached_asset E self A w) in
  let answer :=
    remote E (logged w' [downloading A]) (thumbnail_request self A) in
  (exists r, fst (load_cached_asset E self A w) = Ok r) /\
  (open_fault E w RB p = true \/ read_fault E (logged w [serving A]) p = true ->
   fst (load_cached_asset E self A w) = Ok None) /\
  (forall e, fst (download_asset E self A w) = Exc e -> e = CannotConnect) /\
  (forall r, fst (load_cached_asset E self A w) = Ok r -> truthy r = false ->
     answer = TransportError \/
     (exists ct, ct ∈ _ALLOWED_MIME_TYPES /\ answer = Response 200 ct None) ->
     fst (download_asset E self A w) = Exc CannotConnect).
Proof.
  intros Hdir p w' answer.
  split; [by eapply load_cached_asset_ok|].
  split; [|split].
  - intros Hfault. rewrite (load_cached_asset_eq _ _ dir) by done.
    fold p. destruct (lookup_entry (fs w) p) as [[c|]|]; try reflexivity.
    destruct (open_fault E w RB p); [reflexivity|].
    destruct Hfault as [Hfault|Hfault]; [discriminate|].
    rewrite Hfault. reflexivity.
  - intros e. by apply (download_asset_exc _ _ dir).
  - intros r Hr Hfalsy Hanswer. rewrite download_asset_eq.
    subst answer w'.
    destruct (load_cached_asset E self A w) as [[r'|e'] w1]; simpl in *;
      [|discriminate].
    injection Hr as ->. rewrite Hfalsy, fetch_asset_eq.
    destruct Hanswer as [->|(ct & Hct & ->)]; [reflexivity|].
    unfold asset_of_response. simpl.
    rewrite bool_decide_eq_true_2 by done. reflexivity.
Qed.

Lemma only_connection_failure_propagates_witness :
  fst (load_cached_asset (unreadable serve_but_B) (hub true) "B"
         (cache_with "B" [Byte.x01])) = Ok None /\
  fst (download_asset (unreadable serve_but_B) (hub true) "B"
         (cache_with "B" [Byte.x01])) = Exc CannotConnect.
Proof.
  destruct (only_connection_failure_propagates (unreadable serve_but_B)
              (hub true) cache_dir "B" (cache_with "B" [Byte.x01]))
    as (_ & Hmiss & _ & Hraise); [reflexivity|].
  split.
  - apply Hmiss. left. reflexivity.
  - apply (Hraise None).
    + apply Hmiss. left. reflexivity.
    + reflexivity.
    + left. vm_compute. reflexivity.
Defined.

(** ** The bulk path: [cache_album_assets] *)

Lemma for_each_app {A} (l l' : list A) body w :
  for_each (l ++ l') body w =
  match for_each l body w with
  | (Ok _, w') => for_each l' body w'
  | (Exc e, w') => (Exc e, w')
  end.
Proof.
  revert w. induction l as [|x l IH]; intros w; simpl; [reflexivity|].
  unfold bind. destruct (body x w) as [[[]|e] w']; [apply IH | reflexivity].
Qed.

(** One turn of the loop, on a hub whose cache path is assigned. *)
Lemma cache_album_asset_eq E self dir A w :
  asset_cache_path self = Some dir ->
  cache_album_asset E self A w =
  if isfile (fs w) (os_path_join dir A) then (Ok tt, w)
  else match download_asset E self A w with
       | (Ok r, w1) =>
           if truthy r then
             try_except
               (aiofiles_open_wb E (os_path_join dir A) ;;
                _LOGGER_info "Caching asset: %s" [ArgStr A] ;;
                f_write E (os_path_join dir A) (default [] r))
               (fun e =>
                  _LOGGER_error "Unable to cache asset: %s %s"
                    [ArgStr A; ArgExc e]) w1
           else (Ok tt, w1)
       | (Exc e, w1) => (Exc e, w1)
       end.
Proof.
  intros Hdir. unfold cache_album_asset.
  unfold bind at 1. unfold get_asset_cache_path. rewrite Hdir.
  unfold ret at 1. unfold bind at 1. unfold os_path_isfile.
  destruct (isfile (fs w) (os_path_join dir A)); simpl; [reflexivity|].
  unfold bind at 1.
  destruct (download_asset E self A w) as [[r|e] w1]; [|reflexivity].
  destruct (truthy r); reflexivity.
Qed.

(** The guarded write never raises. *)
Lemma guarded_write_ok E p A data w :
  exists w',
    try_except
      (aiofiles_open_wb E p ;;
       _LOGGER_info "Caching asset: %s" [ArgStr A] ;;
       f_write E p data)
      (fun e =>
         _LOGGER_error "Unable to cache asset: %s %s" [ArgStr A; ArgExc e])
      w = (Ok tt, w').
Proof.
  unfold aiofiles_open_wb, f_write. unfold_monad.
  repeat case_match; simplify_eq; eauto.
Qed.

Lemma cache_album_asset_cached E self dir A w :
  asset_cache_path self = Some dir ->
  isfile (fs w) (os_path_join dir A) = true ->
  cache_album_asset E self A w = (Ok tt, w).
Proof.
  intros Hdir Hfile. rewrite (cache_album_asset_eq _ _ dir) by done.
  by rewrite Hfile.
Qed.

Lemma cache_album_asset_raises E self dir A w e w1 :
  asset_cache_path self = Some dir ->
  isfile (fs w) (os_path_join dir A) = false ->
  download_asset E self A w = (Exc e, w1) ->
  cache_album_asset E self A w = (Exc e, w1).
Proof.
  intros Hdir Hfile Hdl. rewrite (cache_album_asset_eq _ _ dir) by done.
  by rewrite Hfile, Hdl.
Qed.

(** A turn of the loop raises only what its download raises. *)
Lemma cache_album_asset_exc E self dir A w e :
  asset_cache_path self = Some dir ->
  fst (cache_album_asset E self A w) = Exc e ->
  fst (download_asset E self A w) = Exc e.
Proof.
  intros Hdir. rewrite (cache_album_asset_eq _ _ dir) by done.
  destruct (isfile (fs w) (os_path_join dir A)); [discriminate|].
  destruct (download_asset E self A w) as [[r|e'] w1]; simpl;
    [|by intros [= ->]].
  destruct (truthy r); [|discriminate].
  destruct (guarded_write_ok E (os_path_join dir A) A (default [] r) w1)
    as [w' ->].
  discriminate.
Qed.

Lemma cache_album_assets_enabled E self ids w :
  cache_assets self = Some true ->
  cache_album_assets E self ids w = for_each ids (cache_album_asset E self) w.
Proof.
  intros Hon. unfold cache_album_assets, bind, get_cache_assets.
  by rewrite Hon.
Qed.

Lemma cache_album_assets_disabled E self ids w :
  cache_assets self = Some false ->
  cache_album_assets E self ids w = (Ok tt, w).
Proof.
  intros Hoff. unfold cache_album_assets, bind, get_cache_assets.
  by rewrite Hoff.
Qed.

(** Ids whose files exist are skipped: nothing happens at all. *)
Lemma for_each_cached E self dir ids w :
  asset_cache_path self = Some dir ->
  (forall id, id ∈ ids -> isfile (fs w) (os_path_join dir id) = true) ->
  for_each ids (cache_album_asset E self) w = (Ok tt, w).
Proof.
  intros Hdir. induction ids as [|id ids IH]; intros Hall; [reflexivity|].
  simpl. unfold bind.
  rewrite (cache_album_asset_cached _ _ dir);
    [| done | apply Hall; apply elem_of_cons; by left].
  apply IH. intros id' Hin. apply Hall. apply elem_of_cons. by right.
Qed.

(** C9. Empty content counts as absent at both ends, on a hub with
    caching enabled. When [directory/A] is a regular file of zero bytes,
    [download_asset] goes on to the fetch after the lookup and issues its
    GET. When [directory/A] is not a file and the download returns [b""],
    [cache_album_assets] moves on to the next id with the file system
    untouched: nothing is written for A. *)
Theorem empty_content_is_absent E self dir A w :
  cache_assets self = Some true ->
  asset_cache_path self = Some dir ->
  (lookup_entry (fs w) (os_path_join dir A) = Some (RegularFile []) ->
   download_asset E self A w =
     fetch_asset E self A (snd (load_cached_asset E self A w)) /\
   requests (trace (snd (download_asset E self A w))) =
     requests (trace w) ++ [thumbnail_request self A]) /\
  (forall rest w1,
     isfile (fs w) (os_path_join dir A) = false ->
     download_asset E self A w = (Ok (Some []), w1) ->
     cache_album_assets E self (A :: rest) w =
       cache_album_assets E self rest w1 /\
     fs w1 = fs w /\
     isfile (fs w1) (os_path_join dir A) = false).
Proof.
  intros Hon Hdir. split.
  - intros Hfile.
    assert (download_asset E self A w =
              fetch_asset E self A (snd (load_cached_asset E self A w)))
      as Heq.
    { rewrite download_asset_eq, (load_cached_asset_eq _ _ dir) by done.
      rewrite Hfile.
      destruct (open_fault E w RB _); [reflexivity|].
      destruct (read_fault E _ _); reflexivity. }
    split; [exact Heq|].
    rewrite Heq, fetch_asset_eq, asset_of_response_requests.
    by rewrite load_cached_asset_requests.
  - intros rest w1 Hfile Hdl.
    assert (fs w1 = fs w) as Hfs.
    { pose proof (download_asset_fs E self A w) as H.
      by rewrite Hdl in H. }
    split; [|split; [exact Hfs | by rewrite Hfs]].
    rewrite !cache_album_assets_enabled by done. simpl.
    unfold bind. rewrite (cache_album_asset_eq _ _ dir) by done.
    rewrite Hfile, Hdl. reflexivity.
Qed.

(** Both halves run: an empty file for A in front of the usual server, and
    an empty cache in front of a server whose images have zero bytes. *)
Lemma empty_content_is_absent_witness :
  (download_asset (reliable serve) (hub true) "A" (cache_with "A" []) =
     fetch_asset (reliable serve) (hub true) "A"
       (snd (load_cached_asset (reliable serve) (hub true) "A"
               (cache_with "A" []))) /\
   requests (trace (snd (download_asset (reliable serve) (hub true) "A"
                           (cache_with "A" [])))) =
     [thumbnail_request (hub true) "A"]) /\
  (cache_album_assets (reliable (fun _ => Response 200 "image/png" (Some [])))
     (hub true) ["A"] empty_cache =
     (Ok tt,
      logged empty_cache
        [downloading "A"; Get (thumbnail_request (hub true) "A")]) /\
   isfile
     (fs (logged empty_cache
            [downloading "A"; Get (thumbnail_request (hub true) "A")]))
     (os_path_join cache_dir "A") = false).
Proof.
  split.
  - apply (empty_content_is_absent (reliable serve) (hub true) cache_dir "A"
             (cache_with "A" []));
      [reflexivity | reflexivity | vm_compute; reflexivity].
  - destruct (empty_content_is_absent
                (reliable (fun _ => Response 200 "image/png" (Some [])))
                (hub true) cache_dir "A" empty_cache)
      as [_ H]; [reflexivity | reflexivity |].
    destruct (H [] (logged empty_cache
                      [downloading "A";
                       Get (thumbnail_request (hub true) "A")]))
      as (Hwarm & _ & Hfile);
      [vm_compute; reflexivity | vm_compute; reflexivity |].
    split; [|exact Hfile].
    rewrite Hwarm. reflexivity.
Defined.

(** ** Initialisation *)

Lemma clear_asset_cache_eq E dir w :
  clear_asset_cache E dir w =
  match fs w !! dir with
  | Some (Directory es) =>
      match rmtree_fault E w dir with
      | None => (Ok tt, World (delete dir (fs w)) (trace w ++ [cleared]))
      | Some gone =>
          (Ok tt,
           World (<[dir := Directory (foldr delete es gone)]> (fs w))
                 (trace w ++ [unable_clear]))
      end
  | _ => (Ok tt, w)
  end.
Proof.
  unfold clear_asset_cache, shutil_rmtree, cleared, unable_clear.
  unfold_monad. unfold isdir.
  destruct (fs w !! dir) as [[|es]|] eqn:Hd; simpl; try reflexivity.
  rewrite Hd. destruct (rmtree_fault E w dir); reflexivity.
Qed.

Lemma create_asset_cache_eq E enabled dir w :
  create_asset_cache E enabled dir w =
  if enabled then
    match fs w !! dir with
    | Some (Directory _) => (Ok tt, logged w [created dir])
    | Some NotADirectory => (Ok tt, logged w [unable_create dir])
    | None =>
        if makedirs_fault E w dir then (Ok tt, logged w [unable_create dir])
        else (Ok tt, World (<[dir := Directory ∅]> (fs w))
                           (trace w ++ [created dir]))
    end
  else (Ok tt, w).
Proof.
  unfold create_asset_cache, os_makedirs, created, unable_create.
  unfold_monad. destruct enabled; [|reflexivity].
  destruct (fs w !! dir) as [[|es]|]; simpl; try reflexivity.
  destruct (makedirs_fault E w dir); reflexivity.
Qed.

(** Initialisation always returns, with both attributes assigned. *)
Lemma initialize_asset_cache_ok E self w :
  exists w',
    initialize_asset_cache E self w = (Ok (assign_cache_attributes self), w').
Proof.
  unfold initialize_asset_cache, bind, ret.
  rewrite clear_asset_cache_eq.
  destruct (fs w !! _) as [[|es]|]; [| destruct (rmtree_fault E w _) |];
    rewrite create_asset_cache_eq; repeat case_match; simplify_eq; eauto.
Qed.

Lemma isdir_false_isfile t dir A :
  isdir t dir = false -> isfile t (os_path_join dir A) = false.
Proof.
  unfold isdir, isfile, lookup_entry. simpl.
  destruct (t !! dir) as [[|es]|]; done.
Qed.

(** C10. [__init__] assigns neither [asset_cache_path] nor [cache_assets].
    On such a hub the lookup and [download_asset] raise [AttributeError]
    for the first, [cache_album_assets] raises it for the second, each
    before anything else happens; [initialize_asset_cache] returns a hub
    on which both are assigned. *)
Theorem uninitialised_hub_raises E h k path_of cfg A ids w :
  let self := __init__ h k path_of cfg in
  load_cached_asset E self A w = (Exc (AttributeError "asset_cache_path"), w) /\
  download_asset E self A w = (Exc (AttributeError "asset_cache_path"), w) /\
  cache_album_assets E self ids w = (Exc (AttributeError "cache_assets"), w) /\
  exists self' w',
    initialize_asset_cache E self w = (Ok self', w') /\
    cache_assets self' =
      Some (default DEFAULT_CACHE_MODE (CONF_CACHE_MODE cfg)) /\
    asset_cache_path self' = Some (path_of "immich_cache").
Proof.
  intros self. repeat split.
  destruct (initialize_asset_cache_ok E self w) as [w' Hinit].
  exists (assign_cache_attributes self), w'. auto.
Qed.

(** C1 (amended). With caching enabled, a connection failure stops the
    batch where it occurs: if the ids [before] were processed without an
    exception, [directory/A] is not a file and the GET for A fails at the
    transport, then [cache_album_assets] on [before ++ A :: after] raises
    [CannotConnect]; the file system is as the ids [before] left it, so
    nothing is written for A or for any id of [after], and the GET for A
    is the last request issued. An id whose download does not raise never
    stops the loop: a null result or a failed write lets it continue. *)
Theorem warm_stops_at_connection_failure E self dir before A after w w1 :
  cache_assets self = Some true ->
  asset_cache_path self = Some dir ->
  cache_album_assets E self before w = (Ok tt, w1) ->
  isfile (fs w1) (os_path_join dir A) = false ->
  remote E (logged w1 [downloading A]) (thumbnail_request self A) =
    TransportError ->
  (exists w2,
     cache_album_assets E self (before ++ A :: after) w =
       (Exc CannotConnect, w2) /\
     fs w2 = fs w1 /\
     requests (trace w2) = requests (trace w1) ++ [thumbnail_request self A]) /\
  (forall id w',
     fst (download_asset E self id w') <> Exc CannotConnect ->
     exists w'', cache_album_asset E self id w' = (Ok tt, w'')).
Proof.
  intros Hon Hdir Hbefore Hfile Hfail. split.
  - exists (logged w1 [downloading A; Get (thumbnail_request self A);
                       error_connecting]).
    rewrite cache_album_assets_enabled in * by done.
    rewrite for_each_app, Hbefore. simpl. unfold bind.
    rewrite (cache_album_asset_raises _ _ dir A w1 CannotConnect
               (logged w1 [downloading A; Get (thumbnail_request self A);
                           error_connecting])); [| done | done |].
    + split; [reflexivity|]. split; [reflexivity|].
      simpl. by rewrite requests_app.
    + rewrite download_asset_eq, (load_cached_asset_miss _ _ dir) by done.
      simpl. rewrite fetch_asset_eq, Hfail. reflexivity.
  - intros id w' Hno.
    destruct (cache_album_asset E self id w') as [[[]|e] w''] eqn:Hstep;
      [eauto|].
    exfalso. apply Hno.
    pose proof (cache_album_asset_exc E self dir id w' e Hdir) as Hexc.
    rewrite Hstep in Hexc. specialize (Hexc eq_refl).
    rewrite Hexc. f_equal.
    by apply (download_asset_exc E self dir id w').
Qed.

Lemma warm_stops_at_connection_failure_witness :
  exists w2,
    cache_album_assets (reliable serve_but_B) (hub true)
      (["A"] ++ "B" :: ["C"]) empty_cache = (Exc CannotConnect, w2) /\
    fs w2 =
      fs (snd (cache_album_assets (reliable serve_but_B) (hub true) ["A"]
                 empty_cache)) /\
    isfile (fs w2) (os_path_join cache_dir "C") = false.
Proof.
  destruct (warm_stops_at_connection_failure (reliable serve_but_B) (hub true)
              cache_dir ["A"] "B" ["C"] empty_cache
              (snd (cache_album_assets (reliable serve_but_B) (hub true) ["A"]
                      empty_cache)))
    as [(w2 & Hrun & Hfs & _) _];
    [reflexivity | reflexivity | vm_compute; reflexivity
    | vm_compute; reflexivity | vm_compute; reflexivity |].
  exists w2. split; [exact Hrun|]. split; [exact Hfs|].
  rewrite Hfs. vm_compute. reflexivity.
Defined.

(** C1, as stated, fails: the server has bytes for A and C and is
    unreachable for B. [cache_album_assets] on A, B, C raises
    [CannotConnect]; A has its file, B has none, and C, which comes after
    the failure, has none either. *)
Lemma warm_aborted_by_connection_failure :
  let E := reliable serve_but_B in
  let final := cache_album_assets E (hub true) ["A"; "B"; "C"] empty_cache in
  fst (fetch_asset E (hub true) "A" empty_cache) = Ok (Some [Byte.x0a]) /\
  fst (fetch_asset E (hub true) "B" empty_cache) = Exc CannotConnect /\
  fst (fetch_asset E (hub true) "C" empty_cache) = Ok (Some [Byte.x0c]) /\
  fst final = Exc CannotConnect /\
  isfile (fs (snd final)) (os_path_join cache_dir "A") = true /\
  isfile (fs (snd final)) (os_path_join cache_dir "B") = false /\
  isfile (fs (snd final)) (os_path_join cache_dir "C") = false /\
  ~ (fst final = Ok tt /\
     isfile (fs (snd final)) (os_path_join cache_dir "A") = true /\
     isfile (fs (snd final)) (os_path_join cache_dir "C") = true /\
     isfile (fs (snd final)) (os_path_join cache_dir "B") = false).
Proof.
  intros E final.
  repeat (split; [vm_compute; reflexivity|]).
  intros [H _]. vm_compute in H. discriminate H.
Qed.

(** C6. Warming is idempotent. After [initialize_asset_cache], when a
    first [cache_album_assets] on the ids returned and left a file for
    each of them, a second call on the same ids returns in exactly the
    same world: the same files with the same contents, and a trace with
    no new event, hence no GET. *)
Theorem warm_twice_is_idempotent E self0 w0 self w1 ids w2 :
  initialize_asset_cache E self0 w0 = (Ok self, w1) ->
  cache_album_assets E self ids w1 = (Ok tt, w2) ->
  (forall id, id ∈ ids ->
     isfile (fs w2) (os_path_join (hass_config_path self0 "immich_cache") id)
       = true) ->
  cache_album_assets E self ids w2 = (Ok tt, w2) /\
  requests (trace (snd (cache_album_assets E self ids w2))) =
    requests (trace w2).
Proof.
  intros Hinit _ Hfiles.
  assert (cache_album_assets E self ids w2 = (Ok tt, w2)) as Heq.
  { assert (asset_cache_path self =
              Some (hass_config_path self0 "immich_cache") /\
            exists b, cache_assets self = Some b) as [Hdir [b Hb]].
    { destruct (initialize_asset_cache_ok E self0 w0) as [w' Hok].
      rewrite Hok in Hinit. injection Hinit as <- _. simpl. eauto. }
    destruct b.
    - rewrite cache_album_assets_enabled by done.
      by apply (for_each_cached _ _ (hass_config_path self0 "immich_cache")).
    - by apply cache_album_assets_disabled. }
  by rewrite Heq.
Qed.

Lemma warm_twice_is_idempotent_witness :
  let E := reliable serve in
  let w1 := snd (initialize_asset_cache E (new_hub true) no_cache) in
  let w2 := snd (cache_album_assets E (hub true) ["A"; "B"] w1) in
  requests (trace w2) =
    [thumbnail_request (hub true) "A"; thumbnail_request (hub true) "B"] /\
  lookup_entry (fs w2) (os_path_join cache_dir "A") =
    Some (RegularFile [Byte.x0a]) /\
  lookup_entry (fs w2) (os_path_join cache_dir "B") =
    Some (RegularFile [Byte.x0c]) /\
  cache_album_assets E (hub true) ["A"; "B"] w2 = (Ok tt, w2).
Proof.
  intros E w1 w2.
  repeat (split; [vm_compute; reflexivity|]).
  apply (warm_twice_is_idempotent E (new_hub true) no_cache (hub true) w1
           ["A"; "B"] w2).
  - vm_compute. reflexivity.
  - vm_compute. reflexivity.
  - intros id Hid.
    apply elem_of_cons in Hid as [->|Hid]; [vm_compute; reflexivity|].
    apply elem_of_cons in Hid as [->|Hid]; [vm_compute; reflexivity|].
    by apply elem_of_nil in Hid.
Defined.

(** Initialisation is the clearing step followed by the creation step;
    neither can stop it. *)
Lemma initialize_asset_cache_eq E self w :
  initialize_asset_cache E self w =
  (Ok (assign_cache_attributes self),
   snd (create_asset_cache E
          (default DEFAULT_CACHE_MODE (CONF_CACHE_MODE (options self)))
          (hass_config_path self "immich_cache")
          (snd (clear_asset_cache E (hass_config_path self "immich_cache") w)))).
Proof.
  unfold initialize_asset_cache, bind, ret.
  rewrite clear_asset_cache_eq.
  destruct (fs w !! _) as [[|es]|]; [| destruct (rmtree_fault E w _) |];
    simpl; rewrite create_asset_cache_eq; repeat case_match; simplify_eq;
    reflexivity.
Qed.

(** C8. Cold-start invalidation. [initialize_asset_cache] always returns,
    never raises. When the cache directory exists and its deletion does
    not fail, no entry of it is left afterwards (the directory is absent,
    or newly created and empty) and the clearing is logged. A failed
    deletion is logged as an error, and so is a failed creation: with
    caching enabled the directory exists afterwards or the error record is
    in the trace. *)
Theorem initialize_clears_previous_cache E self w :
  let dir := hass_config_path self "immich_cache" in
  let enabled :=
    default DEFAULT_CACHE_MODE (CONF_CACHE_MODE (options self)) in
  exists w',
    initialize_asset_cache E self w =
      (Ok (assign_cache_attributes self), w') /\
    (isdir (fs w) dir = true -> rmtree_fault E w dir = None ->
     (forall A, lookup_entry (fs w') (os_path_join dir A) = None) /\
     (fs w' !! dir = None \/ fs w' !! dir = Some (Directory ∅)) /\
     cleared ∈ trace w') /\
    (isdir (fs w) dir = true -> rmtree_fault E w dir <> None ->
     unable_clear ∈ trace w') /\
    (enabled = true -> isdir (fs w') dir = false ->
     unable_create dir ∈ trace w') /\
    (enabled = true -> isdir (fs w') dir = true -> created dir ∈ trace w').
Proof.
  intros dir enabled. eexists. split; [apply initialize_asset_cache_eq|].
  fold dir enabled.
  rewrite clear_asset_cache_eq, create_asset_cache_eq.
  unfold isdir, lookup_entry, logged, cleared, unable_clear, created,
    unable_create. simpl.
  destruct (fs w !! dir) as [[|es]|] eqn:Hd;
    [| destruct (rmtree_fault E w dir) as [gone|] eqn:Hrm |];
    destruct enabled; simpl;
    repeat case_match; simplify_map_eq;
    repeat split; intros; simplify_map_eq; try done;
    try set_solver.
Qed.

Lemma initialize_clears_previous_cache_witness :
  (exists w',
     initialize_asset_cache (reliable serve) (new_hub true)
       (cache_with "A" [Byte.x01]) = (Ok (hub true), w') /\
     lookup_entry (fs w') (os_path_join cache_dir "A") = None /\
     fs w' !! cache_dir = Some (Directory ∅)) /\
  (exists w',
     initialize_asset_cache (undeletable serve) (new_hub true)
       (cache_with "A" [Byte.x01]) = (Ok (hub true), w') /\
     unable_clear ∈ trace w') /\
  (exists w',
     initialize_asset_cache (uncreatable serve) (new_hub true) no_cache =
       (Ok (hub true), w') /\
     unable_create cache_dir ∈ trace w').
Proof.
  split; [|split].
  - destruct (initialize_clears_previous_cache (reliable serve) (new_hub true)
                (cache_with "A" [Byte.x01]))
      as (w' & Hinit & Hgone & _).
    exists w'. split; [exact Hinit|].
    destruct Hgone as (Hentries & _ & _);
      [vm_compute; reflexivity | reflexivity |].
    split; [apply Hentries|].
    rewrite initialize_asset_cache_eq in Hinit.
    injection Hinit as <-. vm_compute. reflexivity.
  - destruct (initialize_clears_previous_cache (undeletable serve)
                (new_hub true) (cache_with "A" [Byte.x01]))
      as (w' & Hinit & _ & Hlogged & _).
    exists w'. split; [exact Hinit|].
    apply Hlogged; [vm_compute; reflexivity | discriminate].
  - destruct (initialize_clears_previous_cache (uncreatable serve)
                (new_hub true) no_cache)
      as (w' & Hinit & _ & _ & Hlogged & _).
    exists w'. split; [exact Hinit|].
    apply Hlogged; [reflexivity|].
    rewrite initialize_asset_cache_eq in Hinit.
    injection Hinit as <-. vm_compute. reflexivity.
Defined.

(** A file name joined to a directory is the entry of that name in that
    directory: on the strings, [os.path.join] appends it after one
    separator. *)
Lemma posixpath_join_file_name a b :
  is_file_name b = true ->
  a <> "" ->
  ends_with_sep a = false ->
  posixpath_join a b = a +:+ "/" +:+ b.
Proof.
  intros Hname Ha Hend. unfold posixpath_join.
  destruct b as [|c b]; [discriminate|].
  unfold is_file_name in Hname. simpl in Hname.
  apply andb_true_iff in Hname as [_ Hchars].
  apply andb_true_iff in Hchars as [Hc _].
  apply andb_true_iff in Hc as [Hc _].
  apply negb_true_iff, Ascii.eqb_neq in Hc.
  change (String.prefix "/" (String c b))
    with (if ascii_dec "/" c then String.prefix "" b else false).
  destruct (ascii_dec "/" c) as [<-|_]; [done|].
  apply String.eqb_neq in Ha. rewrite Ha, Hend. reflexivity.
Qed.

(** An id that is not a file name leaves the cache directory: an absolute
    id is the whole path. *)
Lemma absolute_id_leaves_cache_directory :
  posixpath_join cache_dir "/etc/passwd" = "/etc/passwd" /\
  is_file_name "/etc/passwd" = false /\
  is_file_name "../www/B" = false /\
  is_file_name "A" = true /\
  posixpath_join cache_dir "A" = "/config/immich_cache/A".
Proof. repeat split. Qed.

(** C7 (amended). Caching disabled. [initialize_asset_cache] returns and
    never creates the cache directory. When no cache directory exists at
    initialisation, or the deletion of the existing one does not fail, no
    cache directory is left. When the deletion fails, the failure is
    logged and the directory stays. [cache_album_assets] does nothing,
    whatever the ids and the world. As long as there is no cache
    directory, for every id that is a file name the lookup misses and
    [download_asset] is the remote fetch: one GET, and the file system is
    left alone. *)
Theorem disabled_cache_behaviour E self w :
  let dir := hass_config_path self "immich_cache" in
  default DEFAULT_CACHE_MODE (CONF_CACHE_MODE (options self)) = false ->
  exists self' w',
    initialize_asset_cache E self w = (Ok self', w') /\
    cache_assets self' = Some false /\
    (isdir (fs w) dir = false -> isdir (fs w') dir = false) /\
    (isdir (fs w) dir = true -> rmtree_fault E w dir = None ->
     isdir (fs w') dir = false) /\
    (isdir (fs w) dir = true -> rmtree_fault E w dir <> None ->
     unable_clear ∈ trace w' /\ isdir (fs w') dir = true) /\
    (forall ids w1, cache_album_assets E self' ids w1 = (Ok tt, w1)) /\
    (forall A w1,
       is_file_name A = true ->
       isdir (fs w1) dir = false ->
       load_cached_asset E self' A w1 = (Ok None, w1) /\
       download_asset E self' A w1 = fetch_asset E self' A w1 /\
       requests (trace (snd (download_asset E self' A w1))) =
         requests (trace w1) ++ [thumbnail_request self' A] /\
       isdir (fs (snd (download_asset E self' A w1))) dir = false).
Proof.
  intros dir Hoff.
  eexists _, _. split; [apply initialize_asset_cache_eq|].
  fold dir. rewrite Hoff.
  assert (cache_assets (assign_cache_attributes self) = Some false) as Hattr.
  { simpl. by rewrite Hoff. }
  assert (asset_cache_path (assign_cache_attributes self) = Some dir)
    as Hpath by reflexivity.
  split; [exact Hattr|].
  rewrite create_asset_cache_eq, clear_asset_cache_eq.
  split; [|split; [|split; [|split]]].
  - unfold isdir. destruct (fs w !! dir) as [[|es]|] eqn:Hd; simpl;
      rewrite ?Hd; done.
  - unfold isdir. destruct (fs w !! dir) as [[|es]|] eqn:Hd; try done.
    intros _ ->. simpl. by rewrite lookup_delete_eq.
  - unfold isdir, unable_clear.
    destruct (fs w !! dir) as [[|es]|] eqn:Hd; try done.
    intros _ Hfault.
    destruct (rmtree_fault E w dir) as [gone|]; [|done]. simpl.
    rewrite lookup_insert_eq. split; [|reflexivity].
    apply elem_of_app. right. apply elem_of_cons. by left.
  - intros ids w1. by apply cache_album_assets_disabled.
  - intros A w1 _ Hnone.
    pose proof (isdir_false_isfile (fs w1) dir A Hnone) as Hfile.
    assert (load_cached_asset E (assign_cache_attributes self) A w1 =
              (Ok None, w1)) as Hmiss
      by (by apply (load_cached_asset_miss _ _ dir)).
    assert (download_asset E (assign_cache_attributes self) A w1 =
              fetch_asset E (assign_cache_attributes self) A w1) as Heq.
    { rewrite download_asset_eq, Hmiss. reflexivity. }
    split; [exact Hmiss|]. split; [exact Heq|].
    rewrite Heq, fetch_asset_eq, asset_of_response_requests,
      asset_of_response_fs.
    auto.
Qed.

Lemma disabled_cache_behaviour_witness :
  (exists w',
     initialize_asset_cache (reliable serve) (new_hub false)
       (cache_with "A" [Byte.x01]) = (Ok (hub false), w') /\
     isdir (fs w') cache_dir = false /\
     cache_album_assets (reliable serve) (hub false) ["A"; "B"] w' =
       (Ok tt, w') /\
     fst (download_asset (reliable serve) (hub false) "A" w') =
       Ok (Some [Byte.x0a]) /\
     requests
       (trace (snd (download_asset (reliable serve) (hub false) "A" w'))) =
       requests (trace w') ++ [thumbnail_request (hub false) "A"]) /\
  (exists w',
     initialize_asset_cache (undeletable serve) (new_hub false)
       (cache_with "A" [Byte.x01]) = (Ok (hub false), w') /\
     unable_clear ∈ trace w' /\
     isdir (fs w') cache_dir = true).
Proof.
  split.
  - destruct (disabled_cache_behaviour (reliable serve) (new_hub false)
                (cache_with "A" [Byte.x01]))
      as (self' & w' & Hinit & _ & _ & Hgone & _ & Hwarm & Hget);
      [reflexivity|].
    pose proof Hinit as Hhub.
    rewrite initialize_asset_cache_eq in Hhub. injection Hhub as <- _.
    assert (isdir (fs w') cache_dir = false) as Hnodir
      by (apply Hgone; [vm_compute; reflexivity | reflexivity]).
    exists w'. split; [exact Hinit|].
    split; [exact Hnodir|].
    split; [apply Hwarm|].
    destruct (Hget "A" w') as (_ & Heq & Hreq & _);
      [reflexivity | exact Hnodir |].
    split; [|exact Hreq].
    etransitivity; [exact (f_equal fst Heq)|].
    vm_compute. reflexivity.
  - destruct (disabled_cache_behaviour (undeletable serve) (new_hub false)
                (cache_with "A" [Byte.x01]))
      as (self' & w' & Hinit & _ & _ & _ & Hstays & _); [reflexivity|].
    pose proof Hinit as Hhub.
    rewrite initialize_asset_cache_eq in Hhub. injection Hhub as <- _.
    exists w'. split; [exact Hinit|].
    apply Hstays; [vm_compute; reflexivity | discriminate].
Defined.

(** C7, as stated, fails when the deletion fails. Caching is disabled, a
    cache directory with a file for A is left from an earlier session and
    cannot be deleted: after [initialize_asset_cache] the directory is
    still there, and [download_asset] serves the old file without any
    request. *)
Lemma disabled_cache_serves_undeleted_file :
  let E := undeletable serve in
  let w' :=
    snd (initialize_asset_cache E (new_hub false) (cache_with "A" [Byte.x01]))
  in
  CONF_CACHE_MODE (options (new_hub false)) = Some false /\
  fst (initialize_asset_cache E (new_hub false) (cache_with "A" [Byte.x01])) =
    Ok (hub false) /\
  isdir (fs w') cache_dir = true /\
  fst (download_asset E (hub false) "A" w') = Ok (Some [Byte.x01]) /\
  requests (trace (snd (download_asset E (hub false) "A" w'))) = [] /\
  ~ (isdir (fs w') cache_dir = false /\
     requests (trace (snd (download_asset E (hub false) "A" w'))) =
       [thumbnail_request (hub false) "A"]).
Proof.
  intros E w'.
  repeat (split; [vm_compute; reflexivity|]).
  intros [H _]. vm_compute in H. discriminate H.
Qed.

(** ** Further properties of the cache methods *)

Lemma lookup_entry_store_ne p q c t :
  p <> q -> lookup_entry (store p c t) q = lookup_entry t q.
Proof.
  intros Hne. unfold store, lookup_entry.
  destruct (t !! parent p) as [[|es]|] eqn:Hp; try reflexivity.
  destruct (decide (parent q = parent p)) as [Heq|Hd].
  - rewrite Heq, lookup_insert_eq, Hp.
    apply lookup_insert_ne. intros Hn. apply Hne.
    destruct p, q; simpl in *; congruence.
  - by rewrite lookup_insert_ne.
Qed.

Lemma lookup_entry_store_eq p c t :
  isdir t (parent p) = true ->
  lookup_entry (store p c t) p = Some (RegularFile c).
Proof.
  unfold isdir, store, lookup_entry.
  destruct (t !! parent p) as [[|es]|] eqn:Hp; try discriminate.
  intros _. by rewrite !lookup_insert_eq.
Qed.

Lemma store_store p c c' t : store p c (store p c' t) = store p c t.
Proof.
  unfold store.
  destruct (t !! parent p) as [[|es]|] eqn:Hp; rewrite ?Hp; try reflexivity.
  rewrite lookup_insert_eq. by rewrite !insert_insert_eq.
Qed.

(** The guarded write of [cache_album_assets], case by case. *)
Lemma guarded_write_eq E p A data w :
  try_except
    (aiofiles_open_wb E p ;;
     _LOGGER_info "Caching asset: %s" [ArgStr A] ;;
     f_write E p data)
    (fun e =>
       _LOGGER_error "Unable to cache asset: %s %s" [ArgStr A; ArgExc e]) w =
  let written :=
    if open_fault E w WB p then (Ok tt, logged w [unable_cache A])
    else
      match write_fault E (World (store p [] (fs w)) (trace w ++ [caching A]))
              p data with
      | Some partial =>
          (Ok tt, World (store p partial (fs w))
                        (trace w ++ [caching A; unable_cache A]))
      | None => (Ok tt, World (store p data (fs w)) (trace w ++ [caching A]))
      end in
  match fs w !! parent p with
  | Some (Directory es) =>
      match es !! name p with
      | Some Subdirectory => (Ok tt, logged w [unable_cache A])
      | _ => written
      end
  | _ => (Ok tt, logged w [unable_cache A])
  end.
Proof.
  unfold aiofiles_open_wb, f_write, caching, unable_cache.
  unfold_monad.
  destruct (fs w !! parent p) as [[|es]|] eqn:Hp; simpl; try reflexivity.
  destruct (es !! name p) as [[c|]|] eqn:Hn; simpl; try reflexivity.
  all: destruct (open_fault E w WB p); simpl; try reflexivity.
  all: destruct (write_fault E _ p data); simpl;
    rewrite store_store, <- ?app_assoc; reflexivity.
Qed.

Lemma guarded_write_requests E p A data w :
  requests
    (trace (snd (try_except
                   (aiofiles_open_wb E p ;;
                    _LOGGER_info "Caching asset: %s" [ArgStr A] ;;
                    f_write E p data)
                   (fun e =>
                      _LOGGER_error "Unable to cache asset: %s %s"
                        [ArgStr A; ArgExc e]) w))) =
  requests (trace w).
Proof.
  rewrite guarded_write_eq. unfold logged.
  repeat case_match; simpl; rewrite requests_app; simpl; apply app_nil_r.
Qed.

Lemma guarded_write_frame E p A data w q :
  p <> q ->
  lookup_entry
    (fs (snd (try_except
                (aiofiles_open_wb E p ;;
                 _LOGGER_info "Caching asset: %s" [ArgStr A] ;;
                 f_write E p data)
                (fun e =>
                   _LOGGER_error "Unable to cache asset: %s %s"
                     [ArgStr A; ArgExc e]) w))) q =
  lookup_entry (fs w) q.
Proof.
  intros Hne. rewrite guarded_write_eq. unfold logged.
  repeat case_match; simpl; rewrite ?lookup_entry_store_ne by done;
    reflexivity.
Qed.

(** The requests of one download: none, or the one for the asset. *)
Lemma download_asset_requests_cases E self A w :
  requests (trace (snd (download_asset E self A w))) = requests (trace w) \/
  requests (trace (snd (download_asset E self A w))) =
    requests (trace w) ++ [thumbnail_request self A].
Proof.
  rewrite download_asset_eq.
  pose proof (load_cached_asset_requests E self A w) as Hl.
  destruct (load_cached_asset E self A w) as [[r|e] w']; simpl in *;
    [|by left].
  destruct (truthy r); simpl; [by left|].
  right. by rewrite fetch_asset_eq, asset_of_response_requests, Hl.
Qed.

(** One turn of the loop on any hub: the file system changes at the
    asset's own path only, and only when that path was not a file. *)
Lemma cache_album_asset_frame E self A w q c :
  lookup_entry (fs w) q = Some (RegularFile c) ->
  lookup_entry (fs (snd (cache_album_asset E self A w))) q =
    Some (RegularFile c).
Proof.
  intros Hq.
  destruct (asset_cache_path self) as [dir|] eqn:Hdir.
  - rewrite (cache_album_asset_eq _ _ dir) by done.
    destruct (isfile (fs w) (os_path_join dir A)) eqn:Hfile; [done|].
    pose proof (download_asset_fs E self A w) as Hfs.
    destruct (download_asset E self A w) as [[r|e] w1]; simpl in *;
      [|by rewrite Hfs].
    destruct (truthy r); simpl; [|by rewrite Hfs].
    rewrite guarded_write_frame; [by rewrite Hfs|].
    intros <-. unfold isfile in Hfile. by rewrite Hq in Hfile.
  - unfold cache_album_asset. unfold_monad. by rewrite Hdir.
Qed.

Lemma cache_album_asset_requests_cases E self A w :
  requests (trace (snd (cache_album_asset E self A w))) = requests (trace w) \/
  requests (trace (snd (cache_album_asset E self A w))) =
    requests (trace w) ++ [thumbnail_request self A].
Proof.
  destruct (asset_cache_path self) as [dir|] eqn:Hdir.
  - rewrite (cache_album_asset_eq _ _ dir) by done.
    destruct (isfile (fs w) (os_path_join dir A)); [by left|].
    pose proof (download_asset_requests_cases E self A w) as Hreq.
    destruct (download_asset E self A w) as [[r|e] w1]; simpl in *; [|done].
    destruct (truthy r); simpl; [|done].
    by rewrite guarded_write_requests.
  - left. unfold cache_album_asset. unfold_monad. by rewrite Hdir.
Qed.

Lemma for_each_cons {A} (x : A) l body w :
  for_each (x :: l) body w =
  match body x w with
  | (Ok _, w') => for_each l body w'
  | (Exc e, w') => (Exc e, w')
  end.
Proof. reflexivity. Qed.

Lemma for_each_frame E self ids w q c :
  lookup_entry (fs w) q = Some (RegularFile c) ->
  lookup_entry (fs (snd (for_each ids (cache_album_asset E self) w))) q =
    Some (RegularFile c).
Proof.
  revert w. induction ids as [|A ids IH]; intros w Hq; [done|].
  rewrite for_each_cons.
  pose proof (cache_album_asset_frame E self A w q c Hq) as Hstep.
  destruct (cache_album_asset E self A w) as [[[]|e] w1]; simpl in *;
    [by apply IH | done].
Qed.

(** X1. Neither the lookup nor [download_asset] ever changes the file
    system, on any hub and in any world, whether the result is a hit, a
    miss or an exception; and the lookup issues no request. *)
Theorem download_asset_never_writes E self A w :
  fs (snd (load_cached_asset E self A w)) = fs w /\
  requests (trace (snd (load_cached_asset E self A w))) = requests (trace w) /\
  fs (snd (download_asset E self A w)) = fs w.
Proof.
  split; [apply load_cached_asset_fs|].
  split; [apply load_cached_asset_requests | apply download_asset_fs].
Qed.

(** X2. [download_asset] issues at most one request per call, and that
    request is the thumbnail request for the asset asked for, sent to the
    hub's host with the hub's API key in the [x-api-key] header. *)
Theorem download_asset_at_most_one_request E self A w :
  let sent :=
    requests (trace (snd (download_asset E self A w))) in
  (sent = requests (trace w) \/
   sent = requests (trace w) ++ [thumbnail_request self A]) /\
  req_base (thumbnail_request self A) = host self /\
  req_headers (thumbnail_request self A) = [(_HEADER_API_KEY, api_key self)].
Proof.
  intros sent. split; [apply download_asset_requests_cases|].
  split; reflexivity.
Qed.

(** X3. Warm, then get. When the cache directory exists, A has no entry in
    it, the download returns non-empty bytes and neither the open nor the
    write fails, [cache_album_assets] on A leaves a regular file with
    exactly those bytes; a later [download_asset] whose read does not fail
    returns them from the file without any request, whatever the server
    would answer by then. *)
Theorem warm_then_download_hits E self dir A w data w1 :
  let p := os_path_join dir A in
  cache_assets self = Some true ->
  asset_cache_path self = Some dir ->
  isdir (fs w) dir = true ->
  lookup_entry (fs w) p = None ->
  download_asset E self A w = (Ok (Some data), w1) ->
  data <> [] ->
  open_fault E w1 WB p = false ->
  write_fault E (World (store p [] (fs w1)) (trace w1 ++ [caching A])) p data
    = None ->
  let w2 := World (store p data (fs w)) (trace w1 ++ [caching A]) in
  cache_album_assets E self [A] w = (Ok tt, w2) /\
  lookup_entry (fs w2) p = Some (RegularFile data) /\
  (forall E',
     open_fault E' w2 RB p = false ->
     read_fault E' (logged w2 [serving A]) p = false ->
     download_asset E' self A w2 = (Ok (Some data), logged w2 [serving A])).
Proof.
  intros p Hon Hdir Hisdir Hnone Hdl Hdata Hopen Hwrite w2.
  assert (fs w1 = fs w) as Hfs.
  { pose proof (download_asset_fs E self A w) as H. by rewrite Hdl in H. }
  assert (lookup_entry (fs w2) p = Some (RegularFile data)) as Hfile.
  { simpl. by apply lookup_entry_store_eq. }
  split; [|split; [exact Hfile|]].
  - rewrite cache_album_assets_enabled by done. simpl. unfold bind.
    rewrite (cache_album_asset_eq _ _ dir) by done. fold p.
    unfold isfile. rewrite Hnone, Hdl.
    destruct data as [|b data]; [done|]. simpl.
    rewrite guarded_write_eq. simpl.
    unfold isdir in Hisdir. unfold lookup_entry in Hnone. simpl in Hnone.
    rewrite Hfs in Hwrite |- *.
    destruct (fs w !! dir) as [[|es]|] eqn:Hd; try done.
    rewrite Hnone, Hopen, Hwrite. reflexivity.
  - intros E' Hopen' Hread'.
    rewrite download_asset_eq, (load_cached_asset_eq _ _ dir) by done.
    fold p. rewrite Hfile, Hopen', Hread'.
    destruct data; [done | reflexivity].
Qed.

Lemma warm_then_download_hits_witness :
  let w2 := snd (cache_album_assets (reliable serve) (hub true) ["A"]
                   empty_cache) in
  cache_album_assets (reliable serve) (hub true) ["A"] empty_cache =
    (Ok tt, w2) /\
  lookup_entry (fs w2) (os_path_join cache_dir "A") =
    Some (RegularFile [Byte.x0a]) /\
  download_asset (reliable serve_but_B) (hub true) "A" w2 =
    (Ok (Some [Byte.x0a]), logged w2 [serving "A"]).
Proof.
  intros w2.
  destruct (warm_then_download_hits (reliable serve) (hub true) cache_dir "A"
              empty_cache [Byte.x0a]
              (snd (download_asset (reliable serve) (hub true) "A"
                      empty_cache)))
    as (Hwarm & Hfile & Hget);
    [ reflexivity | reflexivity | vm_compute; reflexivity
    | vm_compute; reflexivity | vm_compute; reflexivity | discriminate
    | reflexivity | reflexivity |].
  split; [vm_compute; reflexivity|].
  split; [vm_compute; reflexivity|].
  apply (Hget (reliable serve_but_B)); reflexivity.
Defined.

(** X4. A store that cannot start is absorbed. When the download returned
    non-empty bytes but the file cannot be opened for writing, or the id
    is a file name and the cache directory is missing,
    [cache_album_assets] logs the error, leaves the file system as it was
    and goes on with the remaining ids. *)
Theorem failed_open_for_write_is_absorbed E self dir A rest w data w1 :
  let p := os_path_join dir A in
  cache_assets self = Some true ->
  asset_cache_path self = Some dir ->
  isfile (fs w) p = false ->
  download_asset E self A w = (Ok (Some data), w1) ->
  data <> [] ->
  (is_file_name A = true /\ isdir (fs w) dir = false) \/
  open_fault E w1 WB p = true ->
  cache_album_assets E self (A :: rest) w =
    cache_album_assets E self rest (logged w1 [unable_cache A]) /\
  fs (logged w1 [unable_cache A]) = fs w.
Proof.
  intros p Hon Hdir Hfile Hdl Hdata Hfail.
  assert (fs w1 = fs w) as Hfs.
  { pose proof (download_asset_fs E self A w) as H. by rewrite Hdl in H. }
  split; [|exact Hfs].
  rewrite !cache_album_assets_enabled by done.
  rewrite for_each_cons, (cache_album_asset_eq _ _ dir) by done. fold p.
  rewrite Hfile, Hdl.
  destruct data as [|b data]; [done|]. simpl.
  rewrite guarded_write_eq. simpl. rewrite Hfs.
  unfold isdir in Hfail.
  destruct (fs w !! dir) as [[|es]|] eqn:Hd; try reflexivity.
  destruct Hfail as [[_ Hfail]|Hfail]; [discriminate|]. rewrite Hfail.
  destruct (es !! A) as [[c|]|]; reflexivity.
Qed.

Lemma failed_open_for_write_is_absorbed_witness :
  let w1 := snd (download_asset (unwritable serve) (hub true) "A"
                   empty_cache) in
  let w1' := snd (download_asset (reliable serve) (hub true) "A" no_cache) in
  cache_album_assets (unwritable serve) (hub true) ["A"; "B"] empty_cache =
    cache_album_assets (unwritable serve) (hub true) ["B"]
      (logged w1 [unable_cache "A"]) /\
  fs (snd (cache_album_assets (unwritable serve) (hub true) ["A"; "B"]
             empty_cache)) = fs empty_cache /\
  requests (trace (snd (cache_album_assets (unwritable serve) (hub true)
                          ["A"; "B"] empty_cache))) =
    [thumbnail_request (hub true) "A"; thumbnail_request (hub true) "B"] /\
  cache_album_assets (reliable serve) (hub true) ["A"] no_cache =
    (Ok tt, logged w1' [unable_cache "A"]) /\
  fs (logged w1' [unable_cache "A"]) = fs no_cache.
Proof.
  intros w1 w1'.
  destruct (failed_open_for_write_is_absorbed (unwritable serve) (hub true)
              cache_dir "A" ["B"] empty_cache [Byte.x0a] w1)
    as [Hwarm _];
    [ reflexivity | reflexivity | vm_compute; reflexivity
    | vm_compute; reflexivity | discriminate | right; reflexivity |].
  destruct (failed_open_for_write_is_absorbed (reliable serve) (hub true)
              cache_dir "A" [] no_cache [Byte.x0a] w1')
    as [Hmissing Hsame];
    [ reflexivity | reflexivity | vm_compute; reflexivity
    | vm_compute; reflexivity | discriminate
    | left; split; vm_compute; reflexivity |].
  split; [exact Hwarm|].
  split; [vm_compute; reflexivity|].
  split; [vm_compute; reflexivity|].
  split; [exact Hmissing | exact Hsame].
Defined.

(** X5. A write that breaks off is never repaired. When the file was
    opened and the write then fails, leaving [partial] in the file,
    [cache_album_assets] returns normally with the error logged and the
    partial file in place; from then on the id is skipped, so no later
    call of [cache_album_assets], in any environment, fetches it again or
    touches the file. *)
Theorem partial_write_is_never_repaired E self dir A w data w1 partial :
  let p := os_path_join dir A in
  cache_assets self = Some true ->
  asset_cache_path self = Some dir ->
  isdir (fs w) dir = true ->
  lookup_entry (fs w) p = None ->
  download_asset E self A w = (Ok (Some data), w1) ->
  data <> [] ->
  open_fault E w1 WB p = false ->
  write_fault E (World (store p [] (fs w1)) (trace w1 ++ [caching A])) p data
    = Some partial ->
  let w2 := World (store p partial (fs w))
                  (trace w1 ++ [caching A; unable_cache A]) in
  cache_album_assets E self [A] w = (Ok tt, w2) /\
  lookup_entry (fs w2) p = Some (RegularFile partial) /\
  (forall E' w3,
     fs w3 = fs w2 -> cache_album_assets E' self [A] w3 = (Ok tt, w3)).
Proof.
  intros p Hon Hdir Hisdir Hnone Hdl Hdata Hopen Hwrite w2.
  assert (fs w1 = fs w) as Hfs.
  { pose proof (download_asset_fs E self A w) as H. by rewrite Hdl in H. }
  assert (lookup_entry (fs w2) p = Some (RegularFile partial)) as Hfile.
  { simpl. by apply lookup_entry_store_eq. }
  split; [|split; [exact Hfile|]].
  - rewrite cache_album_assets_enabled by done. simpl. unfold bind.
    rewrite (cache_album_asset_eq _ _ dir) by done. fold p.
    unfold isfile. rewrite Hnone, Hdl.
    destruct data as [|b data]; [done|]. simpl.
    rewrite guarded_write_eq. simpl.
    unfold isdir in Hisdir. unfold lookup_entry in Hnone. simpl in Hnone.
    rewrite Hfs in Hwrite |- *.
    destruct (fs w !! dir) as [[|es]|] eqn:Hd; try done.
    rewrite Hnone, Hopen, Hwrite. reflexivity.
  - intros E' w3 Hsame.
    rewrite cache_album_assets_enabled by done.
    apply (for_each_cached _ _ dir); [done|].
    intros id Hid. apply list_elem_of_singleton in Hid as ->.
    rewrite Hsame. apply isfile_lookup_entry. eauto.
Qed.

Lemma partial_write_is_never_repaired_witness :
  let w2 := snd (cache_album_assets (truncating serve) (hub true) ["A"]
                   empty_cache) in
  lookup_entry (fs w2) (os_path_join cache_dir "A") =
    Some (RegularFile [Byte.xff]) /\
  cache_album_assets (reliable serve) (hub true) ["A"] w2 = (Ok tt, w2).
Proof.
  intros w2.
  destruct (partial_write_is_never_repaired (truncating serve) (hub true)
              cache_dir "A" empty_cache [Byte.x0a]
              (snd (download_asset (truncating serve) (hub true) "A"
                      empty_cache)) [Byte.xff])
    as (_ & _ & Hskip);
    [ reflexivity | reflexivity | vm_compute; reflexivity
    | vm_compute; reflexivity | vm_compute; reflexivity | discriminate
    | reflexivity | reflexivity |].
  split; [vm_compute; reflexivity|].
  apply Hskip. vm_compute. reflexivity.
Defined.

(** X6. [cache_album_assets] never overwrites or removes a file: every
    regular file that exists before the call, under any directory and any
    name, is there with the same content afterwards, whatever the hub, the
    ids, the server's answers and the I/O errors, and whether the call
    returns or raises. *)
Theorem warm_preserves_existing_files E self ids w q c :
  lookup_entry (fs w) q = Some (RegularFile c) ->
  lookup_entry (fs (snd (cache_album_assets E self ids w))) q =
    Some (RegularFile c).
Proof.
  intros Hq.
  destruct (cache_assets self) as [[]|] eqn:Hon.
  - rewrite cache_album_assets_enabled by done. by apply for_each_frame.
  - by rewrite cache_album_assets_disabled.
  - unfold cache_album_assets. unfold_monad. by rewrite Hon.
Qed.

Lemma warm_preserves_existing_files_witness :
  lookup_entry
    (fs (snd (cache_album_assets (truncating serve) (hub true)
                ["A"; "B"; "A"] (cache_with "A" [Byte.x01]))))
    (os_path_join cache_dir "A") = Some (RegularFile [Byte.x01]) /\
  lookup_entry
    (fs (snd (cache_album_assets (truncating serve) (hub true)
                ["A"; "B"; "A"] (cache_with "A" [Byte.x01]))))
    (os_path_join cache_dir "B") = Some (RegularFile [Byte.xff]).
Proof.
  split.
  - apply (warm_preserves_existing_files (truncating serve) (hub true)
             ["A"; "B"; "A"] (cache_with "A" [Byte.x01])).
    vm_compute. reflexivity.
  - vm_compute. reflexivity.
Defined.

Lemma for_each_requests E self dir ids w :
  asset_cache_path self = Some dir ->
  exists fetched,
    sublist fetched ids /\
    requests (trace (snd (for_each ids (cache_album_asset E self) w))) =
      requests (trace w) ++ (thumbnail_request self <$> fetched) /\
    (forall id, id ∈ fetched -> isfile (fs w) (os_path_join dir id) = false).
Proof.
  intros Hdir. revert w.
  induction ids as [|A ids IH]; intros w.
  { exists []. split; [constructor|]. split; [by rewrite app_nil_r|].
    intros id Hid. by apply elem_of_nil in Hid. }
  rewrite for_each_cons.
  assert (exists here,
            (here = [] \/
             here = [A] /\ isfile (fs w) (os_path_join dir A) = false) /\
            requests (trace (snd (cache_album_asset E self A w))) =
              requests (trace w) ++ (thumbnail_request self <$> here))
    as (here & Hhere & Hreq).
  { destruct (isfile (fs w) (os_path_join dir A)) eqn:Hfile.
    - exists []. split; [by left|].
      rewrite (cache_album_asset_cached _ _ dir) by done.
      simpl. by rewrite app_nil_r.
    - destruct (cache_album_asset_requests_cases E self A w) as [H|H].
      + exists []. split; [by left|]. simpl. by rewrite app_nil_r.
      + exists [A]. split; [by right|]. exact H. }
  assert (forall id, id ∈ here -> isfile (fs w) (os_path_join dir id) = false)
    as Hhere_new.
  { intros id Hid. destruct Hhere as [->|[-> Hfile]].
    - by apply elem_of_nil in Hid.
    - by apply list_elem_of_singleton in Hid as ->. }
  assert (sublist here [A]) as Hsub_here.
  { destruct Hhere as [->|[-> _]]; [apply sublist_nil_l | done]. }
  pose proof (cache_album_asset_frame E self A w) as Hframe.
  destruct (cache_album_asset E self A w) as [[[]|e] w1]; simpl in *.
  - destruct (IH w1) as (fetched & Hsub & Hreqs & Hnew).
    exists (here ++ fetched). split; [|split].
    + by apply (sublist_app here [A] fetched ids).
    + by rewrite Hreqs, Hreq, fmap_app, app_assoc.
    + intros id Hid. apply elem_of_app in Hid as [Hid|Hid]; [auto|].
      specialize (Hnew id Hid).
      destruct (isfile (fs w) (os_path_join dir id)) eqn:Hfile; [|done].
      apply isfile_lookup_entry in Hfile as [c Hc].
      apply Hframe in Hc. unfold isfile in Hnew. by rewrite Hc in Hnew.
  - exists here. split; [|split; [exact Hreq | exact Hhere_new]].
    transitivity [A]; [exact Hsub_here|].
    apply sublist_skip. apply sublist_nil_l.
Qed.

(** X7. The requests of a warm-up. On a hub whose cache path is assigned,
    the requests that [cache_album_assets] adds to the trace are the
    thumbnail requests of a sub-sequence of the given ids, in the order of
    the list: nothing else is requested, no id is requested more often
    than it is listed, and an id whose file existed at the start is never
    requested. *)
Theorem warm_requests_only_listed_ids E self dir ids w :
  asset_cache_path self = Some dir ->
  exists fetched,
    sublist fetched ids /\
    requests (trace (snd (cache_album_assets E self ids w))) =
      requests (trace w) ++ (thumbnail_request self <$> fetched) /\
    (forall id, id ∈ fetched -> isfile (fs w) (os_path_join dir id) = false).
Proof.
  intros Hdir.
  destruct (cache_assets self) as [[]|] eqn:Hon.
  - rewrite cache_album_assets_enabled by done.
    by apply for_each_requests.
  - rewrite cache_album_assets_disabled by done.
    exists []. split; [apply sublist_nil_l|]. split; [by rewrite app_nil_r|].
    intros id Hid. by apply elem_of_nil in Hid.
  - exists []. split; [apply sublist_nil_l|].
    split; [|intros id Hid; by apply elem_of_nil in Hid].
    unfold cache_album_assets. unfold_monad. rewrite Hon. simpl.
    by rewrite app_nil_r.
Qed.

Lemma warm_requests_only_listed_ids_witness :
  (exists fetched,
     sublist fetched ["A"; "B"; "C"; "B"] /\
     requests (trace (snd (cache_album_assets (reliable serve) (hub true)
                             ["A"; "B"; "C"; "B"]
                             (cache_with "A" [Byte.x01])))) =
       thumbnail_request (hub true) <$> fetched) /\
  requests (trace (snd (cache_album_assets (reliable serve) (hub true)
                          ["A"; "B"; "C"; "B"]
                          (cache_with "A" [Byte.x01])))) =
    [thumbnail_request (hub true) "B"; thumbnail_request (hub true) "C"].
Proof.
  split; [|vm_compute; reflexivity].
  destruct (warm_requests_only_listed_ids (reliable serve) (hub true)
              cache_dir ["A"; "B"; "C"; "B"] (cache_with "A" [Byte.x01]))
    as (fetched & Hsub & Hreq & _); [reflexivity|].
  exists fetched. split; [exact Hsub | exact Hreq].
Defined.

(** X9. Initialising twice is initialising once. In an environment where
    deleting and creating the cache directory do not fail, a second
    [initialize_asset_cache] returns the same hub and leaves the file
    system exactly as the first call left it. *)
Theorem initialize_twice E self w :
  (forall w' d, rmtree_fault E w' d = None) ->
  (forall w' d, makedirs_fault E w' d = false) ->
  exists self1 w1 w2,
    initialize_asset_cache E self w = (Ok self1, w1) /\
    initialize_asset_cache E self1 w1 = (Ok self1, w2) /\
    fs w2 = fs w1.
Proof.
  intros Hrm Hmk.
  destruct (initialize_asset_cache_ok E self w) as [w1 H1].
  destruct (initialize_asset_cache_ok E (assign_cache_attributes self) w1)
    as [w2 H2].
  exists (assign_cache_attributes self), w1, w2.
  split; [exact H1|]. split; [exact H2|].
  rewrite initialize_asset_cache_eq in H1, H2.
  injection H2 as <-. injection H1 as <-. simpl.
  set (dir := hass_config_path self "immich_cache").
  set (enabled := default DEFAULT_CACHE_MODE (CONF_CACHE_MODE (options self))).
  rewrite !create_asset_cache_eq, !clear_asset_cache_eq.
  rewrite !Hrm. unfold logged.
  destruct (fs w !! dir) as [[|es]|] eqn:Hd; destruct enabled; simpl;
    rewrite ?Hd, ?lookup_delete_eq, ?Hmk, ?Hrm; simpl;
    rewrite ?Hd, ?lookup_insert_eq, ?lookup_delete_eq, ?Hrm, ?Hmk; simpl;
    rewrite ?lookup_delete_eq, ?Hmk; simpl;
    try reflexivity;
    apply map_eq; intros i; destruct (decide (i = dir)) as [->|Hne];
    simplify_map_eq; reflexivity.
Qed.

Lemma initialize_twice_witness :
  exists w1 w2,
    initialize_asset_cache (reliable serve) (new_hub true)
      (cache_with "A" [Byte.x01]) = (Ok (hub true), w1) /\
    initialize_asset_cache (reliable serve) (hub true) w1 =
      (Ok (hub true), w2) /\
    fs w2 = fs w1 /\
    fs w1 !! cache_dir = Some (Directory ∅).
Proof.
  destruct (initialize_twice (reliable serve) (new_hub true)
              (cache_with "A" [Byte.x01]))
    as (self1 & w1 & w2 & H1 & H2 & Hfs); [reflexivity | reflexivity |].
  rewrite initialize_asset_cache_eq in H1. injection H1 as <- <-.
  rewrite initialize_asset_cache_eq in H2. injection H2 as <-.
  eexists _, _.
  split; [apply initialize_asset_cache_eq|].
  split; [apply initialize_asset_cache_eq|].
  split; [exact Hfs | vm_compute; reflexivity].
Defined.

(** ** The JSON endpoints *)

Ltac api_unfold :=
  unfold Api.except_ClientError, Api.response_text, Api.response_json in *;
  unfold Api.try_except, Api.bind, Api.ret, Api.raise,
    Api.session_request, Api.read_body,
    Api._LOGGER_error, Api.dict_get, Api.subscript, Api.elements in *.

Lemma calls_app t t' : Api.calls (t ++ t') = Api.calls t ++ Api.calls t'.
Proof. apply omap_app. Qed.

Lemma filter_images_cons a items t :
  Api.filter_images (a :: items) t =
  match a with
  | Api.JDict fields =>
      match fields !! "type" with
      | Some ty =>
          match Api.filter_images items t with
          | (Api.Ok l, t') =>
              (Api.Ok (if Api.eq_str ty "IMAGE" then a :: l else l), t')
          | (Api.Exc e, t') => (Api.Exc e, t')
          end
      | None => (Api.Exc (Api.KeyError "type"), t)
      end
  | _ => (Api.Exc Api.TypeError, t)
  end.
Proof.
  destruct a as [| | | | |fields]; try reflexivity.
  change (Api.filter_images (Api.JDict fields :: items) t)
    with (Api.bind (Api.subscript (Api.JDict fields) "type")
            (fun type =>
               Api.bind (Api.filter_images items)
                 (fun filtered =>
                    Api.ret (if Api.eq_str type "IMAGE"
                             then Api.JDict fields :: filtered
                             else filtered))) t).
  unfold Api.bind, Api.subscript, Api.ret, Api.raise.
  destruct (fields !! "type"); reflexivity.
Qed.

(** The image filter does not touch the trace. *)
Lemma filter_images_trace items t :
  snd (Api.filter_images items t) = t.
Proof.
  induction items as [|a items IH]; [reflexivity|].
  rewrite filter_images_cons.
  destruct a as [| | | | |fields]; try reflexivity.
  destruct (fields !! "type") as [ty|]; [|reflexivity].
  destruct (Api.filter_images items t) as [[l|e] t']; simpl in *; by subst.
Qed.

(** On records that all have a type, the filter keeps the images. *)
Lemma filter_images_typed items t :
  forallb Api.has_type items = true ->
  Api.filter_images items t = (Api.Ok (List.filter Api.is_image items), t).
Proof.
  induction items as [|a items IH]; [reflexivity|].
  simpl forallb. intros [Ha Hrest]%andb_true_iff.
  rewrite filter_images_cons.
  destruct a as [| | | | |fields]; try discriminate.
  simpl in Ha. apply bool_decide_eq_true in Ha as [ty Hty].
  rewrite Hty, (IH Hrest). simpl. rewrite Hty.
  by destruct (Api.eq_str ty "IMAGE").
Qed.

(** On a list with a record that has no type, the filter raises. *)
Lemma filter_images_untyped items t :
  forallb Api.has_type items = false ->
  exists e,
    Api.filter_images items t = (Api.Exc e, t) /\
    (e = Api.KeyError "type" \/ e = Api.TypeError).
Proof.
  induction items as [|a items IH]; [discriminate|].
  simpl forallb. intros Hbad. rewrite filter_images_cons.
  destruct a as [| | | | |fields]; eauto.
  destruct (fields !! "type") as [ty|] eqn:Hty; [|eauto].
  simpl in Hbad. rewrite Hty in Hbad.
  rewrite bool_decide_eq_true_2 in Hbad by eauto.
  destruct (IH Hbad) as (e & -> & He). eauto.
Qed.

(** X10. [authenticate] returns [True] exactly when the server answers the
    token validation with status 200 and a JSON object whose [authStatus]
    member is present and truthy. *)
Theorem authenticate_accepts_iff S self t :
  let req := Api.Request Api.POST (host self) "/api/auth/validateToken"
               (Api.json_headers self) [] in
  fst (Api.authenticate S self t) = Api.Ok true <->
  exists resp fields v,
    S t req = Api.Answer resp /\
    Api.status resp = 200 /\
    Api.json_body resp = Api.Body (Api.JDict fields) /\
    fields !! "authStatus" = Some v /\
    Api.truthy v = true.
Proof.
  intros req. unfold Api.authenticate. fold req. api_unfold. split.
  - destruct (S t req) as [|[st tx js]] eqn:HS; simpl; [discriminate|].
    destruct (Z.eqb_spec st 200) as [->|Hst]; simpl.
    + destruct js as [[| | | | |fields]| |]; simpl; try discriminate.
      destruct (fields !! "authStatus") as [v|] eqn:Hv; simpl.
      * destruct (Api.truthy v) eqn:Htruthy; simpl.
        { intros _. exists (Api.Response 200 tx (Api.Body (Api.JDict fields))).
          eauto 10. }
        destruct tx; simpl; discriminate.
      * destruct tx; simpl; discriminate.
    + destruct tx; simpl; discriminate.
  - intros (resp & fields & v & -> & Hst & Hjs & Hv & Htruthy).
    destruct resp as [st tx js]. simpl in *. subst st js. simpl.
    rewrite Hv. simpl. rewrite Htruthy. reflexivity.
Qed.

(** X11. [authenticate] refuses without raising. When the status is not
    200, or the JSON object has no truthy [authStatus], and the body text
    can be read, the method returns [False]; the trace gains the request
    and one error record carrying the body. *)
Theorem authenticate_refuses_with_false S self t resp raw :
  let req := Api.Request Api.POST (host self) "/api/auth/validateToken"
               (Api.json_headers self) [] in
  S t req = Api.Answer resp ->
  Api.text resp = Api.Body raw ->
  Api.status resp <> 200 \/
  (exists fields,
     Api.json_body resp = Api.Body (Api.JDict fields) /\
     Api.truthy (default Api.JNull (fields !! "authStatus")) = false) ->
  Api.authenticate S self t =
    (Api.Ok false,
     t ++ [Api.Call req;
           Api.Log ERROR "Error from API: body=%s" [Api.ArgStr raw]]).
Proof.
  intros req HS Htext Hbad. unfold Api.authenticate. fold req. api_unfold.
  rewrite HS. destruct resp as [st tx js]. simpl in *. subst tx.
  destruct (Z.eqb_spec st 200) as [->|Hst]; simpl.
  - destruct Hbad as [Hbad|(fields & -> & Hfalsy)]; [done|]. simpl.
    rewrite Hfalsy. simpl. by rewrite <- app_assoc.
  - by rewrite <- app_assoc.
Qed.

Lemma authenticate_refuses_with_false_witness :
  Api.authenticate
    (Api.always (Api.Answer (Api.Response 401 (Api.Body "denied")
                               Api.BodyValueError)))
    (new_hub true) [] =
    (Api.Ok false,
     [Api.Call (Api.Request Api.POST "http://immich.local"
                  "/api/auth/validateToken"
                  (Api.json_headers (new_hub true)) []);
      Api.Log ERROR "Error from API: body=%s" [Api.ArgStr "denied"]]) /\
  fst (Api.authenticate
         (Api.always (Api.ok (Api.JDict {["authStatus" := Api.JBool false]})))
         (new_hub true) []) = Api.Ok false.
Proof.
  split.
  - apply (authenticate_refuses_with_false
             (Api.always (Api.Answer (Api.Response 401 (Api.Body "denied")
                                        Api.BodyValueError)))
             (new_hub true) []
             (Api.Response 401 (Api.Body "denied") Api.BodyValueError)
             "denied");
      [reflexivity | reflexivity | left; discriminate].
  - rewrite (authenticate_refuses_with_false
               (Api.always
                  (Api.ok (Api.JDict {["authStatus" := Api.JBool false]})))
               (new_hub true) []
               (Api.Response 200 (Api.Body "")
                  (Api.Body (Api.JDict {["authStatus" := Api.JBool false]})))
               "");
      [reflexivity | reflexivity | reflexivity |].
    right. eexists. split; [reflexivity|]. vm_compute. reflexivity.
Defined.

(** Each method is an exchange. *)
Lemma authenticate_exchange S self :
  Api.authenticate S self =
  Api.exchange S (Api.authenticate_request self) (Api.ret false)
    (fun response auth_result =>
       Api.bind (Api.dict_get auth_result "authStatus")
         (fun auth_status =>
            if negb (Api.truthy auth_status) then
              Api.bind (Api.response_text response)
                (fun raw_result =>
                   Api.bind
                     (Api._LOGGER_error "Error from API: body=%s"
                        [Api.ArgStr raw_result])
                     (fun _ => Api.ret false))
            else Api.ret true)).
Proof. reflexivity. Qed.

Lemma get_my_user_info_exchange S self :
  Api.get_my_user_info S self =
  Api.exchange S (Api.user_info_request self) (Api.raise Api.ApiError)
    (fun _ user_info => Api.ret user_info).
Proof. reflexivity. Qed.

Lemma get_asset_info_exchange S self asset_id :
  Api.get_asset_info S self asset_id =
  Api.exchange S (Api.asset_info_request self asset_id)
    (Api.raise Api.ApiError) (fun _ asset_info => Api.ret asset_info).
Proof. reflexivity. Qed.

Lemma list_all_albums_exchange S self :
  Api.list_all_albums S self =
  Api.exchange S (Api.albums_request self) (Api.raise Api.ApiError)
    (fun _ album_list => Api.ret album_list).
Proof. reflexivity. Qed.

Lemma list_favorite_images_exchange S self :
  Api.list_favorite_images S self =
  Api.exchange S (Api.favorites_request self) (Api.raise Api.ApiError)
    (fun _ favorites =>
       Api.bind (Api.subscript favorites "assets")
         (fun favorites_assets =>
            Api.bind (Api.subscript favorites_assets "items")
              (fun assets =>
                 Api.bind (Api.elements assets)
                   (fun items =>
                      Api.bind (Api.filter_images items)
                        (fun filtered_assets => Api.ret filtered_assets))))).
Proof. reflexivity. Qed.

Lemma list_album_images_exchange S self album_id :
  Api.list_album_images S self album_id =
  Api.exchange S (Api.album_request self album_id) (Api.raise Api.ApiError)
    (fun _ album_info =>
       Api.bind (Api.subscript album_info "assets")
         (fun assets =>
            Api.bind (Api.elements assets)
              (fun items =>
                 Api.bind (Api.filter_images items)
                   (fun filtered_assets => Api.ret filtered_assets)))).
Proof. reflexivity. Qed.

(** An unreachable server: the request is recorded, the failure logged,
    [CannotConnect] raised. *)
Lemma exchange_transport_error {A} S r (rejected : Api.M A) accepted t :
  S t r = Api.TransportError ->
  Api.exchange S r rejected accepted t =
  (Api.Exc Api.CannotConnect, t ++ [Api.Call r; Api.error_connecting]).
Proof.
  intros HS. unfold Api.exchange, Api.error_connecting. api_unfold.
  rewrite HS. simpl. by rewrite <- app_assoc.
Qed.

(** A status other than 200 with a readable body. *)
Lemma exchange_rejected {A} S r (rejected : Api.M A) accepted t resp raw :
  S t r = Api.Answer resp ->
  Api.status resp <> 200 ->
  Api.text resp = Api.Body raw ->
  Api.exchange S r rejected accepted t =
  Api.try_except rejected Api.except_ClientError
    (t ++ [Api.Call r; Api.error_from_api raw]).
Proof.
  intros HS Hst Htext. unfold Api.exchange, Api.error_from_api. api_unfold.
  rewrite HS. destruct resp as [st tx js]. simpl in *. subst tx.
  destruct (Z.eqb_spec st 200) as [->|_]; [done|]. simpl.
  by rewrite <- app_assoc.
Qed.

(** Status 200 with a document that decodes. *)
Lemma exchange_accepted {A} S r (rejected : Api.M A) accepted t resp doc :
  S t r = Api.Answer resp ->
  Api.status resp = 200 ->
  Api.json_body resp = Api.Body doc ->
  Api.exchange S r rejected accepted t =
  Api.try_except (accepted resp doc) Api.except_ClientError (t ++ [Api.Call r]).
Proof.
  intros HS Hst Hjs. unfold Api.exchange. api_unfold.
  rewrite HS. destruct resp as [st tx js]. simpl in *. subst st js.
  reflexivity.
Qed.

(** An exchange issues exactly its own request, as long as the two
    continuations issue none. *)
Lemma exchange_calls {A} S r (rejected : Api.M A) accepted t :
  (forall t', Api.calls (snd (rejected t')) = Api.calls t') ->
  (forall resp doc t',
     Api.calls (snd (accepted resp doc t')) = Api.calls t') ->
  Api.calls (snd (Api.exchange S r rejected accepted t)) = Api.calls t ++ [r].
Proof.
  intros Hrej Hacc. unfold Api.exchange. api_unfold.
  assert (forall t0, Api.calls (t0 ++ [Api.Call r]) = Api.calls t0 ++ [r])
    as Hcall by (intros; by rewrite calls_app).
  assert (forall t0 fmt args,
            Api.calls (t0 ++ [Api.Log ERROR fmt args]) = Api.calls t0)
    as Hlog by (intros; rewrite calls_app; simpl; apply app_nil_r).
  destruct (S t r) as [|[st tx js]]; simpl.
  { by rewrite Hlog, Hcall. }
  destruct (negb (st =? 200)%Z); simpl.
  - destruct tx as [raw| |]; simpl.
    + specialize (Hrej ((t ++ [Api.Call r]) ++
                          [Api.Log ERROR "Error from API: body=%s"
                             [Api.ArgStr raw]])).
      destruct (rejected _) as [[a|e] t']; simpl in *.
      * by rewrite Hrej, Hlog, Hcall.
      * destruct e; simpl; rewrite ?Hlog, Hrej, Hlog; apply Hcall.
    + by rewrite Hlog, Hcall.
    + apply Hcall.
  - destruct js as [doc| |]; simpl.
    + specialize (Hacc (Api.Response st tx (Api.Body doc)) doc
                       (t ++ [Api.Call r])).
      destruct (accepted _ _ _) as [[a|e] t']; simpl in *.
      * by rewrite Hacc, Hcall.
      * destruct e; simpl; rewrite ?Hlog, Hacc; apply Hcall.
    + by rewrite Hlog, Hcall.
    + apply Hcall.
Qed.

Lemma filter_sublist {A} (f : A -> bool) (l : list A) :
  sublist (List.filter f l) l.
Proof.
  induction l as [|x l IH]; simpl; [constructor|].
  destruct (f x); [by apply sublist_skip | by apply sublist_cons].
Qed.

Lemma filter_all {A} (f : A -> bool) (l : list A) :
  Forall (fun x => f x = true) (List.filter f l).
Proof.
  induction l as [|x l IH]; simpl; [constructor|].
  destruct (f x) eqn:Hx; [by constructor | done].
Qed.

(** The part of the two image listings after the asset list was found. *)
Lemma images_of_items_eq items t :
  Api.try_except
    (Api.bind (Api.elements (Api.JList items))
       (fun items =>
          Api.bind (Api.filter_images items)
            (fun filtered_assets => Api.ret filtered_assets)))
    Api.except_ClientError t =
  if forallb Api.has_type items
  then (Api.Ok (List.filter Api.is_image items), t)
  else (Api.filter_images items t).
Proof.
  unfold Api.try_except, Api.bind, Api.elements, Api.ret.
  destruct (forallb Api.has_type items) eqn:Htyped.
  - by rewrite filter_images_typed.
  - destruct (filter_images_untyped items t Htyped) as (e & -> & [->| ->]);
      reflexivity.
Qed.

(** X12. An unreachable server. When the transport fails, each of the six
    methods records its request, logs the connection error and raises
    [CannotConnect]; none returns a value and none raises [ApiError]. *)
Theorem unreachable_server_raises_CannotConnect S self asset_id album_id t :
  (forall r, S t r = Api.TransportError) ->
  Api.authenticate S self t =
    (Api.Exc Api.CannotConnect,
     t ++ [Api.Call (Api.authenticate_request self); Api.error_connecting]) /\
  Api.get_my_user_info S self t =
    (Api.Exc Api.CannotConnect,
     t ++ [Api.Call (Api.user_info_request self); Api.error_connecting]) /\
  Api.get_asset_info S self asset_id t =
    (Api.Exc Api.CannotConnect,
     t ++ [Api.Call (Api.asset_info_request self asset_id);
           Api.error_connecting]) /\
  Api.list_favorite_images S self t =
    (Api.Exc Api.CannotConnect,
     t ++ [Api.Call (Api.favorites_request self); Api.error_connecting]) /\
  Api.list_all_albums S self t =
    (Api.Exc Api.CannotConnect,
     t ++ [Api.Call (Api.albums_request self); Api.error_connecting]) /\
  Api.list_album_images S self album_id t =
    (Api.Exc Api.CannotConnect,
     t ++ [Api.Call (Api.album_request self album_id); Api.error_connecting]).
Proof.
  intros Hdown.
  rewrite authenticate_exchange, get_my_user_info_exchange,
    get_asset_info_exchange, list_favorite_images_exchange,
    list_all_albums_exchange, list_album_images_exchange.
  repeat split; by apply exchange_transport_error.
Qed.

Lemma unreachable_server_raises_CannotConnect_witness :
  fst (Api.authenticate (Api.always Api.TransportError) (new_hub true) []) =
    Api.Exc Api.CannotConnect /\
  fst (Api.list_album_images (Api.always Api.TransportError) (new_hub true)
         "holidays" []) = Api.Exc Api.CannotConnect.
Proof.
  destruct (unreachable_server_raises_CannotConnect
              (Api.always Api.TransportError) (new_hub true) "A" "holidays" [])
    as (Hauth & _ & _ & _ & _ & Halbum); [reflexivity|].
  rewrite Hauth, Halbum. split; reflexivity.
Defined.

(** X13. A status other than 200 is an [ApiError]. When the server answers
    with another status and a readable body, the five data methods log the
    body and raise [ApiError], not [CannotConnect], and return nothing,
    whatever the JSON of the answer is. *)
Theorem rejected_status_raises_ApiError S self asset_id album_id t st raw js :
  st <> 200 ->
  (forall r, S t r = Api.Answer (Api.Response st (Api.Body raw) js)) ->
  Api.get_my_user_info S self t =
    (Api.Exc Api.ApiError,
     t ++ [Api.Call (Api.user_info_request self); Api.error_from_api raw]) /\
  Api.get_asset_info S self asset_id t =
    (Api.Exc Api.ApiError,
     t ++ [Api.Call (Api.asset_info_request self asset_id);
           Api.error_from_api raw]) /\
  Api.list_favorite_images S self t =
    (Api.Exc Api.ApiError,
     t ++ [Api.Call (Api.favorites_request self); Api.error_from_api raw]) /\
  Api.list_all_albums S self t =
    (Api.Exc Api.ApiError,
     t ++ [Api.Call (Api.albums_request self); Api.error_from_api raw]) /\
  Api.list_album_images S self album_id t =
    (Api.Exc Api.ApiError,
     t ++ [Api.Call (Api.album_request self album_id);
           Api.error_from_api raw]).
Proof.
  intros Hst Hanswer.
  rewrite get_my_user_info_exchange, get_asset_info_exchange,
    list_favorite_images_exchange, list_all_albums_exchange,
    list_album_images_exchange.
  repeat split;
    by rewrite (exchange_rejected _ _ _ _ _
                  (Api.Response st (Api.Body raw) js) raw).
Qed.

Lemma rejected_status_raises_ApiError_witness :
  let S := Api.always
             (Api.Answer (Api.Response 404 (Api.Body "Not found")
                            (Api.Body Api.album))) in
  fst (Api.get_asset_info S (new_hub true) "A" []) = Api.Exc Api.ApiError /\
  Api.list_album_images S (new_hub true) "holidays" [] =
    (Api.Exc Api.ApiError,
     [Api.Call (Api.album_request (new_hub true) "holidays");
      Api.error_from_api "Not found"]).
Proof.
  intros S.
  destruct (rejected_status_raises_ApiError S (new_hub true) "A" "holidays" []
              404 "Not found" (Api.Body Api.album))
    as (_ & Hasset & _ & _ & Halbum); [discriminate | reflexivity |].
  rewrite Hasset, Halbum. split; reflexivity.
Defined.

Lemma exchange_document_iff S r t doc :
  fst (Api.exchange S r (Api.raise Api.ApiError)
         (fun _ d => Api.ret d) t) = Api.Ok doc <->
  exists resp,
    S t r = Api.Answer resp /\
    Api.status resp = 200 /\
    Api.json_body resp = Api.Body doc.
Proof.
  unfold Api.exchange. api_unfold. split.
  - destruct (S t r) as [|[st tx js]]; simpl; [discriminate|].
    destruct (Z.eqb_spec st 200) as [->|Hst]; simpl.
    + destruct js as [d| |]; simpl; try discriminate.
      intros [= ->]. eauto.
    + destruct tx; simpl; discriminate.
  - intros ([st tx js] & -> & Hst & Hjs). simpl in *. by subst.
Qed.

(** X14. The three plain getters hand the document through. Each of
    [get_my_user_info], [get_asset_info] and [list_all_albums] returns a
    value exactly when the server answers its request with status 200 and
    a JSON body that decodes, and the value is that document, unchanged. *)
Theorem json_getters_return_document S self asset_id t doc :
  (fst (Api.get_my_user_info S self t) = Api.Ok doc <->
   exists resp,
     S t (Api.user_info_request self) = Api.Answer resp /\
     Api.status resp = 200 /\ Api.json_body resp = Api.Body doc) /\
  (fst (Api.get_asset_info S self asset_id t) = Api.Ok doc <->
   exists resp,
     S t (Api.asset_info_request self asset_id) = Api.Answer resp /\
     Api.status resp = 200 /\ Api.json_body resp = Api.Body doc) /\
  (fst (Api.list_all_albums S self t) = Api.Ok doc <->
   exists resp,
     S t (Api.albums_request self) = Api.Answer resp /\
     Api.status resp = 200 /\ Api.json_body resp = Api.Body doc).
Proof.
  rewrite get_my_user_info_exchange, get_asset_info_exchange,
    list_all_albums_exchange.
  repeat split; by apply exchange_document_iff.
Qed.

(** X15. [list_album_images] keeps the images. When the album document is
    an object whose [assets] member is a list, a call that returns gives
    exactly the records of that list whose [type] is the string [IMAGE]:
    in the order of the list, every one of them an image, none added. It
    returns whenever every record of the list has a [type]. *)
Theorem list_album_images_keeps_images S self album_id t resp fields items :
  S t (Api.album_request self album_id) = Api.Answer resp ->
  Api.status resp = 200 ->
  Api.json_body resp = Api.Body (Api.JDict fields) ->
  fields !! "assets" = Some (Api.JList items) ->
  (forallb Api.has_type items = true ->
   Api.list_album_images S self album_id t =
     (Api.Ok (List.filter Api.is_image items),
      t ++ [Api.Call (Api.album_request self album_id)])) /\
  (forall images,
     fst (Api.list_album_images S self album_id t) = Api.Ok images ->
     images = List.filter Api.is_image items /\
     Forall (fun a => Api.is_image a = true) images /\
     sublist images items).
Proof.
  intros HS Hst Hjs Hassets.
  assert (Api.list_album_images S self album_id t =
            if forallb Api.has_type items
            then (Api.Ok (List.filter Api.is_image items),
                  t ++ [Api.Call (Api.album_request self album_id)])
            else Api.filter_images items
                   (t ++ [Api.Call (Api.album_request self album_id)]))
    as Heq.
  { rewrite list_album_images_exchange.
    rewrite (exchange_accepted _ _ _ _ _ resp (Api.JDict fields)) by done.
    rewrite <- images_of_items_eq.
    unfold Api.try_except, Api.bind, Api.subscript at 1.
    rewrite Hassets. reflexivity. }
  split.
  - intros Htyped. by rewrite Heq, Htyped.
  - intros images. rewrite Heq.
    destruct (forallb Api.has_type items) eqn:Htyped; simpl.
    + intros [= <-]. split; [reflexivity|].
      split; [apply filter_all | apply filter_sublist].
    + destruct (filter_images_untyped items
                  (t ++ [Api.Call (Api.album_request self album_id)]) Htyped)
        as (e & -> & _).
      discriminate.
Qed.

Lemma list_album_images_keeps_images_witness :
  Api.list_album_images (Api.always (Api.ok Api.album)) (new_hub true)
    "holidays" [] =
    (Api.Ok [Api.asset "a1" "IMAGE"; Api.asset "a2" "IMAGE"],
     [Api.Call (Api.album_request (new_hub true) "holidays")]).
Proof.
  destruct (list_album_images_keeps_images (Api.always (Api.ok Api.album))
              (new_hub true) "holidays" []
              (Api.Response 200 (Api.Body "") (Api.Body Api.album))
              {["albumName" := Api.JStr "Holidays";
                "assets" := Api.JList [Api.asset "a1" "IMAGE";
                                       Api.asset "v1" "VIDEO";
                                       Api.asset "a2" "IMAGE"]]}
              [Api.asset "a1" "IMAGE"; Api.asset "v1" "VIDEO";
               Api.asset "a2" "IMAGE"])
    as [Hlist _];
    [reflexivity | reflexivity | reflexivity | vm_compute; reflexivity |].
  rewrite Hlist by (vm_compute; reflexivity).
  vm_compute. reflexivity.
Defined.

(** X16. A malformed album document is not an [ApiError]. With status 200
    and a document that decodes: an object without [assets] raises
    [KeyError] for that key; a document that is not an object raises
    [TypeError]; a record of the list without [type] raises [KeyError] for
    [type], or [TypeError] when it is not an object. In each case only the
    request is in the trace: nothing is logged, and no partial list is
    returned. *)
Theorem list_album_images_malformed_document S self album_id t resp doc :
  S t (Api.album_request self album_id) = Api.Answer resp ->
  Api.status resp = 200 ->
  Api.json_body resp = Api.Body doc ->
  let sent := t ++ [Api.Call (Api.album_request self album_id)] in
  (forall fields,
     doc = Api.JDict fields -> fields !! "assets" = None ->
     Api.list_album_images S self album_id t =
       (Api.Exc (Api.KeyError "assets"), sent)) /\
  ((forall fields, doc <> Api.JDict fields) ->
   Api.list_album_images S self album_id t = (Api.Exc Api.TypeError, sent)) /\
  (forall fields items,
     doc = Api.JDict fields -> fields !! "assets" = Some (Api.JList items) ->
     forallb Api.has_type items = false ->
     exists e,
       Api.list_album_images S self album_id t = (Api.Exc e, sent) /\
       (e = Api.KeyError "type" \/ e = Api.TypeError)).
Proof.
  intros HS Hst Hjs sent.
  rewrite list_album_images_exchange.
  rewrite (exchange_accepted _ _ _ _ _ resp doc) by done. fold sent.
  split; [|split].
  - intros fields -> Hnone.
    unfold Api.try_except, Api.bind, Api.subscript, Api.raise,
      Api.except_ClientError.
    by rewrite Hnone.
  - intros Hshape.
    destruct doc as [| | | | |fields]; try reflexivity.
    by destruct (Hshape fields).
  - intros fields items -> Hassets Htyped.
    destruct (filter_images_untyped items sent Htyped) as (e & Hf & He).
    exists e. split; [|exact He].
    pose proof (images_of_items_eq items sent) as Himg.
    rewrite Htyped, Hf in Himg. rewrite <- Himg.
    unfold Api.try_except, Api.bind, Api.subscript at 1.
    rewrite Hassets. reflexivity.
Qed.

Lemma list_album_images_malformed_document_witness :
  Api.list_album_images (Api.always (Api.ok Api.broken_album)) (new_hub true)
    "holidays" [] =
    (Api.Exc (Api.KeyError "type"),
     [Api.Call (Api.album_request (new_hub true) "holidays")]) /\
  Api.list_album_images (Api.always (Api.ok (Api.JDict ∅))) (new_hub true)
    "holidays" [] =
    (Api.Exc (Api.KeyError "assets"),
     [Api.Call (Api.album_request (new_hub true) "holidays")]) /\
  Api.list_album_images (Api.always (Api.ok Api.JNull)) (new_hub true)
    "holidays" [] =
    (Api.Exc Api.TypeError,
     [Api.Call (Api.album_request (new_hub true) "holidays")]).
Proof.
  split; [vm_compute; reflexivity|].
  split.
  - destruct (list_album_images_malformed_document
                (Api.always (Api.ok (Api.JDict ∅))) (new_hub true)
                "holidays" []
                (Api.Response 200 (Api.Body "") (Api.Body (Api.JDict ∅)))
                (Api.JDict ∅))
      as (Hkey & _ & _); [reflexivity | reflexivity | reflexivity |].
    apply (Hkey ∅); reflexivity.
  - destruct (list_album_images_malformed_document
                (Api.always (Api.ok Api.JNull)) (new_hub true)
                "holidays" []
                (Api.Response 200 (Api.Body "") (Api.Body Api.JNull))
                Api.JNull)
      as (_ & Hshape & _); [reflexivity | reflexivity | reflexivity |].
    apply Hshape. discriminate.
Defined.

(** X17. [list_favorite_images] asks for the favourites and keeps the
    images. Its request is a POST of the form field [isFavorite=true] to
    the metadata search. When the document is an object whose [assets]
    member is an object with a list under [items], a call that returns
    gives exactly the records of that list whose [type] is [IMAGE], in
    order; it returns whenever every record has a [type]. *)
Theorem list_favorite_images_keeps_images S self t resp fields inner items :
  S t (Api.favorites_request self) = Api.Answer resp ->
  Api.status resp = 200 ->
  Api.json_body resp = Api.Body (Api.JDict fields) ->
  fields !! "assets" = Some (Api.JDict inner) ->
  inner !! "items" = Some (Api.JList items) ->
  Api.req_method (Api.favorites_request self) = Api.POST /\
  Api.req_data (Api.favorites_request self) = [("isFavorite", "true")] /\
  (forallb Api.has_type items = true ->
   Api.list_favorite_images S self t =
     (Api.Ok (List.filter Api.is_image items),
      t ++ [Api.Call (Api.favorites_request self)])) /\
  (forall images,
     fst (Api.list_favorite_images S self t) = Api.Ok images ->
     images = List.filter Api.is_image items /\
     Forall (fun a => Api.is_image a = true) images /\
     sublist images items).
Proof.
  intros HS Hst Hjs Hassets Hitems.
  split; [reflexivity|]. split; [reflexivity|].
  assert (Api.list_favorite_images S self t =
            if forallb Api.has_type items
            then (Api.Ok (List.filter Api.is_image items),
                  t ++ [Api.Call (Api.favorites_request self)])
            else Api.filter_images items
                   (t ++ [Api.Call (Api.favorites_request self)]))
    as Heq.
  { rewrite list_favorite_images_exchange.
    rewrite (exchange_accepted _ _ _ _ _ resp (Api.JDict fields)) by done.
    rewrite <- images_of_items_eq.
    unfold Api.try_except, Api.bind, Api.subscript at 1.
    rewrite Hassets. unfold Api.ret at 1. unfold Api.subscript at 1.
    rewrite Hitems. reflexivity. }
  split.
  - intros Htyped. by rewrite Heq, Htyped.
  - intros images. rewrite Heq.
    destruct (forallb Api.has_type items) eqn:Htyped; simpl.
    + intros [= <-]. split; [reflexivity|].
      split; [apply filter_all | apply filter_sublist].
    + destruct (filter_images_untyped items
                  (t ++ [Api.Call (Api.favorites_request self)]) Htyped)
        as (e & -> & _).
      discriminate.
Qed.

Lemma list_favorite_images_keeps_images_witness :
  let items := [Api.asset "v1" "VIDEO"; Api.asset "a1" "IMAGE"] in
  let inner : gmap string Api.json := {["items" := Api.JList items]} in
  let fields : gmap string Api.json := {["assets" := Api.JDict inner]} in
  Api.list_favorite_images (Api.always (Api.ok (Api.JDict fields)))
    (new_hub true) [] =
    (Api.Ok [Api.asset "a1" "IMAGE"],
     [Api.Call (Api.favorites_request (new_hub true))]).
Proof.
  intros items inner fields.
  destruct (list_favorite_images_keeps_images
              (Api.always (Api.ok (Api.JDict fields))) (new_hub true) []
              (Api.Response 200 (Api.Body "") (Api.Body (Api.JDict fields)))
              fields inner items)
    as (_ & _ & Hlist & _);
    [ reflexivity | reflexivity | reflexivity | vm_compute; reflexivity
    | vm_compute; reflexivity |].
  rewrite Hlist by (vm_compute; reflexivity).
  vm_compute. reflexivity.
Defined.

Lemma ret_calls {A} (a : A) t : Api.calls (snd (Api.ret a t)) = Api.calls t.
Proof. reflexivity. Qed.

Lemma raise_calls {A} e t :
  Api.calls (snd (@Api.raise A e t)) = Api.calls t.
Proof. reflexivity. Qed.

Lemma images_calls doc t :
  Api.calls
    (snd (Api.bind (Api.elements doc)
            (fun items =>
               Api.bind (Api.filter_images items)
                 (fun filtered_assets => Api.ret filtered_assets)) t)) =
  Api.calls t.
Proof.
  unfold Api.bind, Api.elements, Api.ret, Api.raise.
  destruct doc as [| | |s|items|fields]; try reflexivity.
  all: match goal with
       | |- context [Api.filter_images ?l ?t0] =>
           pose proof (filter_images_trace l t0) as Htrace;
           destruct (Api.filter_images l t0) as [[l'|e] t']; simpl in *;
           by subst
       end.
Qed.

(** X18. One authenticated request per call. Each of the six methods adds
    exactly one request to the trace, its own, whatever the server
    answers and whether the method returns or raises; that request goes
    to the hub's host and carries the hub's API key in the [x-api-key]
    header. *)
Theorem every_method_sends_one_keyed_request S self asset_id album_id t :
  (Api.calls (snd (Api.authenticate S self t)) =
     Api.calls t ++ [Api.authenticate_request self] /\
   Api.calls (snd (Api.get_my_user_info S self t)) =
     Api.calls t ++ [Api.user_info_request self] /\
   Api.calls (snd (Api.get_asset_info S self asset_id t)) =
     Api.calls t ++ [Api.asset_info_request self asset_id] /\
   Api.calls (snd (Api.list_favorite_images S self t)) =
     Api.calls t ++ [Api.favorites_request self] /\
   Api.calls (snd (Api.list_all_albums S self t)) =
     Api.calls t ++ [Api.albums_request self] /\
   Api.calls (snd (Api.list_album_images S self album_id t)) =
     Api.calls t ++ [Api.album_request self album_id]) /\
  (forall r,
     r ∈ [Api.authenticate_request self; Api.user_info_request self;
          Api.asset_info_request self asset_id; Api.favorites_request self;
          Api.albums_request self; Api.album_request self album_id] ->
     Api.req_base r = host self /\
     (_HEADER_API_KEY, api_key self) ∈ Api.req_headers r).
Proof.
  split.
  - rewrite authenticate_exchange, get_my_user_info_exchange,
      get_asset_info_exchange, list_favorite_images_exchange,
      list_all_albums_exchange, list_album_images_exchange.
    repeat split; apply exchange_calls; try (intros; reflexivity).
    + intros resp doc t'. api_unfold.
      destruct doc as [| | | | |fields]; try reflexivity. simpl.
      destruct (negb _); [|reflexivity].
      destruct (Api.text resp); simpl; rewrite ?calls_app; simpl;
        rewrite ?app_nil_r; reflexivity.
    + intros resp doc t'. unfold Api.bind at 1, Api.subscript at 1.
      destruct doc as [| | | | |fields]; try reflexivity.
      destruct (fields !! "assets") as [inner|]; [|reflexivity].
      unfold Api.ret at 1. unfold Api.bind at 1, Api.subscript at 1.
      destruct inner as [| | | | |inner]; try reflexivity.
      destruct (inner !! "items") as [assets|]; [|reflexivity].
      apply images_calls.
    + intros resp doc t'. unfold Api.bind at 1, Api.subscript at 1.
      destruct doc as [| | | | |fields]; try reflexivity.
      destruct (fields !! "assets") as [assets|]; [|reflexivity].
      apply images_calls.
  - intros r Hr. unfold Api.json_headers.
    repeat (apply elem_of_cons in Hr as [->|Hr];
            [split; [reflexivity | set_solver]|]).
    by apply elem_of_nil in Hr.
Qed.

(** X19. What [authenticate] can raise. With status 200 and a document
    that is not a JSON object, [auth_result.get] raises [AttributeError]
    and nothing is logged. No call of [authenticate] raises [ApiError],
    [KeyError] or [TypeError]: apart from [CannotConnect], only that
    [AttributeError] and a [ValueError] from decoding the body escape. *)
Theorem authenticate_exceptions S self t :
  (forall resp doc,
     S t (Api.authenticate_request self) = Api.Answer resp ->
     Api.status resp = 200 ->
     Api.json_body resp = Api.Body doc ->
     (forall fields, doc <> Api.JDict fields) ->
     Api.authenticate S self t =
       (Api.Exc (Api.AttributeError "get"),
        t ++ [Api.Call (Api.authenticate_request self)])) /\
  (forall e,
     fst (Api.authenticate S self t) = Api.Exc e ->
     e = Api.CannotConnect \/ e = Api.ValueError \/
     e = Api.AttributeError "get").
Proof.
  split.
  - intros resp doc HS Hst Hjs Hshape.
    rewrite authenticate_exchange.
    rewrite (exchange_accepted _ _ _ _ _ resp doc) by done.
    destruct doc as [| | | | |fields]; try reflexivity.
    by destruct (Hshape fields).
  - intros e. unfold Api.authenticate. api_unfold.
    destruct (S t _) as [|[st tx js]]; simpl; [intros [= <-]; auto|].
    destruct (negb (st =? 200)%Z); simpl.
    + destruct tx; simpl; intros [= <-]; auto.
    + destruct js as [[| | | | |fields]| |]; simpl;
        try (intros [= <-]; auto).
      destruct (negb _); simpl; [|discriminate].
      destruct tx; simpl; intros [= <-]; auto.
Qed.
